(** * Thread: the lifecycle and message-passing supervisor of [thread.h]

    A shallow embedding of [class Thread] (src/thread.h).  The two function
    templates the header defines, [Thread::send_all] and [Thread::emit_all],
    and the four [mark_*] stores are transcribed statement by statement.
    Everything the header only declares or includes ([result.h], [errable.h],
    [queue.h], [message.h], libuv, the virtual hooks and the out-of-line
    members) is either a field of the [Collaborators] class below or a
    definition whose comment starts with "Modelled from the spec".

    The embedding is sequential: a [Thread] value is the object's state, every
    member function maps a state to a result and a new state, and each call to
    a collaborator is appended to the [trace] ghost field so that theorems can
    speak about which calls happened and in which order. *)

From Stdlib Require Import List String ZArith Bool Lia DecimalString.
Import ListNotations.

Local Open Scope Z_scope.
Local Open Scope list_scope.

Infix "+++" := String.append (right associativity, at level 60).

(** ** result.h *)

(** [Result<V>]: either a value or an error message. *)
Inductive Result (V : Type) : Type :=
| Ok (value : V)
| Error (message : string).

Arguments Ok {V} value.
Arguments Error {V} message.

(** [ok_result(value)] and [error_result(message)]: the two free constructor
    functions of result.h.  They build a [Result] and touch nothing else. *)
Definition ok_result {V : Type} (value : V) : Result V := Ok value.
Definition error_result {V : Type} (message : string) : Result V := Error message.

Definition is_error {V : Type} (r : Result V) : bool :=
  match r with Ok _ => false | Error _ => true end.

(** [r.propagate(value)]: keep the error of [r], replace an ok payload. *)
Definition propagate {V U : Type} (r : Result V) (value : U) : Result U :=
  match r with Ok _ => Ok value | Error e => Error e end.

(** [r.propagate_as_void()]. *)
Definition propagate_as_void {V : Type} (r : Result V) : Result unit :=
  propagate r tt.

(** ** The enumerations of thread.h *)

(** [enum State] (thread.h, private). *)
Inductive State : Type := STOPPED | STARTING | RUNNING | STOPPING.

Definition State_eqb (a b : State) : bool :=
  match a, b with
  | STOPPED, STOPPED | STARTING, STARTING
  | RUNNING, RUNNING | STOPPING, STOPPING => true
  | _, _ => false
  end.

(** [enum OfflineCommandOutcome { OFFLINE_ACK, TRIGGER_RUN }].  A C++ enum is
    an integer; [send_all] itself has a branch for a value that is neither
    enumerator, so the type is kept as the integer it is. *)
Definition OfflineCommandOutcome : Type := Z.
Definition OFFLINE_ACK : OfflineCommandOutcome := 0.
Definition TRIGGER_RUN : OfflineCommandOutcome := 1.

(** ** message.h *)

(** Modelled from the spec: message.h is not part of the sources.  The spec
    gives a command payload a tag among Add, Remove, LogFile, LogStdout,
    LogStderr, LogDisable or anything else. *)
Inductive CommandAction : Type :=
| COMMAND_ADD
| COMMAND_REMOVE
| COMMAND_LOG_FILE
| COMMAND_LOG_STDERR
| COMMAND_LOG_STDOUT
| COMMAND_LOG_DISABLE
| COMMAND_OTHER (tag : N).

Record CommandPayload : Type := {
  action : CommandAction;
  arg : string
}.

(** Modelled from the spec: a message is a Command or an Ack; an Ack carries a
    success flag, a diagnostic text and the back-reference to the message it
    answers. *)
Inductive Message : Type :=
| Command (payload : CommandPayload)
| Ack (original : Message) (success : bool) (text : string).

(** [Message::as_command()]: the payload, or a null pointer. *)
Definition as_command (m : Message) : option CommandPayload :=
  match m with Command p => Some p | Ack _ _ _ => None end.

(** [Message::ack(original, success, text)]. *)
Definition ack (original : Message) (success : bool) (text : string) : Message :=
  Ack original success text.

(** [Message::ack(original, result)]: success when [result] is ok, with the
    error text otherwise. *)
Definition ack_result (original : Message) (r : Result unit) : Message :=
  match r with
  | Ok _ => Ack original true EmptyString
  | Error e => Ack original false e
  end.

(** The message an ack answers. *)
Definition answered (m : Message) : option Message :=
  match m with Ack original _ _ => Some original | Command _ => None end.

(** ** queue.h *)

(** Modelled from the spec: queue.h is not part of the sources.  A FIFO channel
    exposing its last internal error; a queue with an internal failure answers
    every enqueue with that error, a healthy one appends. *)
Record Queue : Type := {
  items : list Message;
  queue_error : option string
}.

Definition Queue_enqueue_all (ms : list Message) (q : Queue) : Result unit * Queue :=
  match queue_error q with
  | Some e => (Error e, q)
  | None => (Ok tt, {| items := items q ++ ms; queue_error := None |})
  end.

Definition Queue_enqueue (m : Message) (q : Queue) : Result unit * Queue :=
  Queue_enqueue_all [m] q.

(** Modelled from the spec: [dequeue_all() -> batch] takes everything that is
    waiting; nothing waiting is an absent batch. *)
Definition Queue_dequeue_all (q : Queue) : option (list Message) * Queue :=
  match items q with
  | [] => (None, q)
  | ms => (Some ms, {| items := []; queue_error := queue_error q |})
  end.

Definition Queue_size (q : Queue) : nat := List.length (items q).

Definition Queue_get_error (q : Queue) : string :=
  match queue_error q with Some e => e | None => EmptyString end.

(** ** Calls to collaborators *)

Inductive QueueName : Type := QIn | QOut.

(** One entry per call that leaves the function under study. *)
Inductive Event : Type :=
| EvMark (s : State)                              (* state.store(s) *)
| EvJoin                                          (* uv_thread_join(&uv_handle) *)
| EvSpawn                                         (* uv_thread_create, inside run() *)
| EvWake                                          (* wake() *)
| EvAsyncSend                                     (* uv_async_send(main_callback) *)
| EvEnqueue (q : QueueName) (m : Message)         (* q.enqueue(m) *)
| EvEnqueueAll (q : QueueName) (ms : list Message). (* q.enqueue_all(begin, end) *)

(** The parts of the program that thread.h uses and does not define: the
    virtual hooks a subclass overrides, libuv, and the stream operators.  An
    external call answers as a function of the calls made so far.  A hook is
    taken to touch nothing of the [Thread] but what its type shows: the
    offline handler may rewrite the starter, [wake()] only reports. *)
Class Collaborators : Type := {
  (** The offline configuration held by [starter]. *)
  ThreadStarter : Type;
  (** [virtual handle_offline_command(payload)]: may alter the starter. *)
  handle_offline_command :
    CommandPayload -> ThreadStarter -> Result OfflineCommandOutcome * ThreadStarter;
  (** [virtual wake()]. *)
  wake : list Event -> Result unit;
  (** [uv_async_send(main_callback)]: 0 or a libuv error code. *)
  uv_async_send : list Event -> Z;
  (** [uv_thread_create(&uv_handle, ...)]: 0 or a libuv error code. *)
  uv_thread_create : list Event -> Z;
  uv_strerror : Z -> string;
  (** [operator<<] on a message and on the handler's result. *)
  show_message : Message -> string;
  show_outcome : Result OfflineCommandOutcome -> string
}.

Section ThreadModel.

Context {C : Collaborators}.

(** The fields of [class Thread] that [send_all] and [emit_all] read or write.
    [health] stands for the error stored by the [SyncErrable] base class;
    [trace] is the ghost record of collaborator calls. *)
Record Thread : Type := {
  health : option string;
  state : State;
  starter : ThreadStarter;
  in_ : Queue;
  out : Queue;
  dead_letter_office : option (list Message);
  trace : list Event
}.

Definition set_health (h : option string) (t : Thread) : Thread :=
  {| health := h; state := state t; starter := starter t; in_ := in_ t;
     out := out t; dead_letter_office := dead_letter_office t; trace := trace t |}.

Definition set_state (s : State) (t : Thread) : Thread :=
  {| health := health t; state := s; starter := starter t; in_ := in_ t;
     out := out t; dead_letter_office := dead_letter_office t; trace := trace t |}.

Definition set_starter (s : ThreadStarter) (t : Thread) : Thread :=
  {| health := health t; state := state t; starter := s; in_ := in_ t;
     out := out t; dead_letter_office := dead_letter_office t; trace := trace t |}.

Definition set_in (q : Queue) (t : Thread) : Thread :=
  {| health := health t; state := state t; starter := starter t; in_ := q;
     out := out t; dead_letter_office := dead_letter_office t; trace := trace t |}.

Definition set_out (q : Queue) (t : Thread) : Thread :=
  {| health := health t; state := state t; starter := starter t; in_ := in_ t;
     out := q; dead_letter_office := dead_letter_office t; trace := trace t |}.

Definition set_dead_letter_office (d : option (list Message)) (t : Thread) : Thread :=
  {| health := health t; state := state t; starter := starter t; in_ := in_ t;
     out := out t; dead_letter_office := d; trace := trace t |}.

(** Append one collaborator call to the ghost trace. *)
Definition record_event (e : Event) (t : Thread) : Thread :=
  {| health := health t; state := state t; starter := starter t; in_ := in_ t;
     out := out t; dead_letter_office := dead_letter_office t;
     trace := trace t ++ [e] |}.

(** ** errable.h *)

(** Modelled from the spec: errable.h is not part of the sources.  The first
    reported error is stored and never replaced; an instance is healthy while
    none is stored, and [health_err_result] turns the stored error into a
    [Result]. *)
Definition is_healthy (t : Thread) : bool :=
  match health t with None => true | Some _ => false end.

Definition get_error (t : Thread) : string :=
  match health t with Some e => e | None => EmptyString end.

Definition health_err_result {V : Type} (t : Thread) : Result V :=
  Error (get_error t).

Definition report_error (e : string) (t : Thread) : Thread :=
  match health t with
  | None => set_health (Some e) t
  | Some _ => t
  end.

(** ** thread.h, lines 160-169: the state stores and loads *)

Definition mark_stopped (t : Thread) : Thread :=
  record_event (EvMark STOPPED) (set_state STOPPED t).
Definition mark_starting (t : Thread) : Thread :=
  record_event (EvMark STARTING) (set_state STARTING t).
Definition mark_running (t : Thread) : Thread :=
  record_event (EvMark RUNNING) (set_state RUNNING t).
Definition mark_stopping (t : Thread) : Thread :=
  record_event (EvMark STOPPING) (set_state STOPPING t).

Definition is_starting (t : Thread) : bool := State_eqb (state t) STARTING.
Definition is_running (t : Thread) : bool := State_eqb (state t) RUNNING.
Definition is_stopped (t : Thread) : bool := State_eqb (state t) STOPPED.
Definition is_stopping (t : Thread) : bool := State_eqb (state t) STOPPING.

(** ** thread.h, lines 175-178: queue statistics *)

Definition get_in_queue_error (t : Thread) : string := Queue_get_error (in_ t).
Definition get_in_queue_size (t : Thread) : nat := Queue_size (in_ t).
Definition get_out_queue_error (t : Thread) : string := Queue_get_error (out t).
Definition get_out_queue_size (t : Thread) : nat := Queue_size (out t).

(** ** The queue members, as called on [in] and [out] *)

Definition in_enqueue (m : Message) (t : Thread) : Result unit * Thread :=
  let '(r, q) := Queue_enqueue m (in_ t) in
  (r, record_event (EvEnqueue QIn m) (set_in q t)).

Definition in_enqueue_all (ms : list Message) (t : Thread) : Result unit * Thread :=
  let '(r, q) := Queue_enqueue_all ms (in_ t) in
  (r, record_event (EvEnqueueAll QIn ms) (set_in q t)).

Definition out_enqueue_all (ms : list Message) (t : Thread) : Result unit * Thread :=
  let '(r, q) := Queue_enqueue_all ms (out t) in
  (r, record_event (EvEnqueueAll QOut ms) (set_out q t)).

(** [wake()] as called from [send_all]. *)
Definition call_wake (t : Thread) : Result unit * Thread :=
  (wake (trace t), record_event EvWake t).

(** ** Members declared in thread.h and defined out of line *)

(** Modelled from the spec: [Thread::run()] is declared in thread.h and defined
    elsewhere.  Health is checked on entry like in every public operation; the
    thread is marked STARTING, the worker is spawned, and a spawn failure is
    stored as the health error and returned. *)
Definition run (t : Thread) : Result unit * Thread :=
  if negb (is_healthy t) then (health_err_result t, t) else
  let t1 := mark_starting t in
  let err := uv_thread_create (trace t1) in
  let t2 := record_event EvSpawn t1 in
  if err =? 0 then (ok_result tt, t2)
  else
    let t3 := report_error (uv_strerror err) t2 in
    (health_err_result t3, t3).

(** Modelled from the spec: the end of the worker's stop sequence.  One final
    drain of [in] moves whatever arrived in the race window into the dead
    letter office. *)
Definition capture_dead_letters (t : Thread) : Thread :=
  match Queue_dequeue_all (in_ t) with
  | (Some ms, q) => set_dead_letter_office (Some ms) (set_in q t)
  | (None, _) => t
  end.

(** Modelled from the spec: after the final drain the worker marks STOPPED and
    exits ([Thread::start()] is documented in thread.h to do so "just before
    exiting"). *)
Definition worker_exit (t : Thread) : Thread :=
  mark_stopped (capture_dead_letters t).

(** [uv_thread_join(&uv_handle)]: returns once the worker has exited, that is
    once the worker has run [worker_exit]. *)
Definition uv_thread_join (t : Thread) : Thread :=
  worker_exit (record_event EvJoin t).

(** ** [Thread::send_all], thread.h lines 203-271 *)

(** Lines 227-249: the loop over the batch of a STOPPED thread.  [acks] and
    [should_run] are the two locals declared on lines 224-225.  The loop is
    left early, with the queue's error, when [in.enqueue] fails (line 241). *)
Fixpoint classify (ms : list Message) (acks : list Message) (should_run : bool)
    (t : Thread) : Result (list Message * bool) * Thread :=
  match ms with
  | [] => (Ok (acks, should_run), t)
  | it :: rest =>
    match as_command it with
    | None =>
      let m := "Non-command message " +++ show_message it +++ " sent" in
      classify rest (acks ++ [ack it false m]) should_run t
    | Some command =>
      let '(r0, st) := handle_offline_command command (starter t) in
      let t0 := set_starter st t in
      match r0 with
      | Error _ =>
        classify rest (acks ++ [ack_result it (propagate_as_void r0)]) should_run t0
      | Ok v =>
        if v =? OFFLINE_ACK then
          classify rest (acks ++ [ack_result it (propagate_as_void r0)]) should_run t0
        else if v =? TRIGGER_RUN then
          let '(r1, t1) := in_enqueue it t0 in
          match r1 with
          | Error e => (Error e, t1)
          | Ok _ => classify rest acks true t1
          end
        else
          let m := "Message " +++ show_message it
                   +++ " returned invalid offline outcome " +++ show_outcome r0 in
          classify rest (acks ++ [ack it false m]) should_run t0
      end
    end
  end.

(** Lines 223-261: the body of [if (is_stopped())]. *)
Definition send_all_stopped (ms : list Message) (t : Thread) : Result bool * Thread :=
  match classify ms [] false t with
  | (Error e, t1) => (Error e, t1)
  | (Ok (acks, should_run), t1) =>
    let some_acks := negb (match acks with [] => true | _ => false end) in
    let '(r2, t2) := if some_acks then out_enqueue_all acks t1 else (Ok tt, t1) in
    match r2 with
    | Error e => (Error e, t2)
    | Ok _ =>
      if should_run then
        let '(rr, t3) := run t2 in (propagate rr some_acks, t3)
      else (ok_result some_acks, t2)
    end
  end.

(** Lines 263-270: enqueue the batch and hint a running worker. *)
Definition send_all_enqueue (ms : list Message) (t : Thread) : Result bool * Thread :=
  let '(r3, t1) := in_enqueue_all ms t in
  match r3 with
  | Error e => (Error e, t1)
  | Ok _ =>
    if is_running t1 then
      let '(rw, t2) := call_wake t1 in (propagate rw false, t2)
    else (ok_result false, t1)
  end.

(** Lines 223-270, what follows the [if (is_stopping())] block. *)
Definition send_all_dispatch (ms : list Message) (t : Thread) : Result bool * Thread :=
  if is_stopped t then send_all_stopped ms t else send_all_enqueue ms t.

(** Lines 206-271, with the recursive call of line 219 left open as [self]. *)
Definition send_all_body (self : list Message -> Thread -> Result bool * Thread)
    (ms : list Message) (t : Thread) : Result bool * Thread :=
  if negb (is_healthy t) then (health_err_result t, t) else
  if is_stopping t then
    let t1 := uv_thread_join t in
    match dead_letter_office t1 with
    | Some dead_letters =>
      self (dead_letters ++ ms) (set_dead_letter_office None t1)
    | None => send_all_dispatch ms t1
    end
  else send_all_dispatch ms t.

(** The recursion of line 219, unrolled [fuel] times. *)
Fixpoint send_all_fuel (fuel : nat) (ms : list Message) (t : Thread)
    : Result bool * Thread :=
  match fuel with
  | O => (Error "send_all: replay nested deeper than unrolled", t)
  | S fuel' => send_all_body (send_all_fuel fuel') ms t
  end.

(** [Thread::send_all].  A replay runs on a thread that was joined, hence is
    no longer STOPPING, so the recursion is never deeper than two calls;
    [send_all_unfold] below proves that this definition satisfies the
    recursive equation of the source. *)
Definition send_all (ms : list Message) (t : Thread) : Result bool * Thread :=
  send_all_fuel 2 ms t.

(** ** [Thread::emit_all], thread.h lines 273-287 *)

Definition emit_all (ms : list Message) (t : Thread) : Result unit * Thread :=
  if negb (is_healthy t) then (health_err_result t, t) else
  let '(qr, t1) := out_enqueue_all ms t in
  match qr with
  | Error e => (Error e, t1)
  | Ok _ =>
    let uv_err := uv_async_send (trace t1) in
    let t2 := record_event EvAsyncSend t1 in
    if negb (uv_err =? 0) then (error_result (uv_strerror uv_err), t2)
    else (ok_result tt, t2)
  end.

(** ** The other public operations, declared in thread.h only *)

(** Modelled from the spec: [send(message)] is [send_all] on a batch of one. *)
Definition send (m : Message) (t : Thread) : Result bool * Thread :=
  send_all [m] t.

(** Modelled from the spec: [drain()] is the replay of [send_all] with an empty
    set of new messages. *)
Definition drain (t : Thread) : Result bool * Thread :=
  send_all [] t.

(** Modelled from the spec: [receive_all()] checks health, then takes and
    clears the whole content of [out]; nothing waiting is an absent result. *)
Definition receive_all (t : Thread) : Result (option (list Message)) * Thread :=
  if negb (is_healthy t) then (health_err_result t, t) else
  let '(batch, q) := Queue_dequeue_all (out t) in
  (ok_result batch, set_out q t).

(** Modelled from the spec: [emit(message)] is [emit_all] on a batch of one. *)
Definition emit (m : Message) (t : Thread) : Result unit * Thread :=
  emit_all [m] t.

(** ** The classification of a batch, stated message by message *)

(** What the STOPPED branch decides for one message: a synchronous ack, or
    "start the thread and let it consume the message". *)
Inductive Verdict : Type :=
| Acked (a : Message)
| Triggered.

(** The verdict on one message, as the spec words step 3 of message admission:
    a non-command gets a failure ack; [OFFLINE_ACK] or an error of the handler
    gets an ack; [TRIGGER_RUN] triggers; any other outcome gets a failure ack. *)
Definition verdict (it : Message) (st : ThreadStarter) : Verdict * ThreadStarter :=
  match as_command it with
  | None =>
    (Acked (ack it false ("Non-command message " +++ show_message it +++ " sent")), st)
  | Some command =>
    let '(r0, st') := handle_offline_command command st in
    match r0 with
    | Error e => (Acked (ack it false e), st')
    | Ok v =>
      if v =? OFFLINE_ACK then (Acked (ack it true EmptyString), st')
      else if v =? TRIGGER_RUN then (Triggered, st')
      else (Acked (ack it false ("Message " +++ show_message it
                     +++ " returned invalid offline outcome " +++ show_outcome r0)), st')
    end
  end.

(** The verdicts on a batch, the starter threaded through in batch order. *)
Fixpoint verdicts (ms : list Message) (st : ThreadStarter)
    : list (Message * Verdict) * ThreadStarter :=
  match ms with
  | [] => ([], st)
  | it :: rest =>
    let '(v, st1) := verdict it st in
    let '(vs, st2) := verdicts rest st1 in
    ((it, v) :: vs, st2)
  end.

Fixpoint acks_of (vs : list (Message * Verdict)) : list Message :=
  match vs with
  | [] => []
  | (_, Acked a) :: rest => a :: acks_of rest
  | (_, Triggered) :: rest => acks_of rest
  end.

Fixpoint triggered_of (vs : list (Message * Verdict)) : list Message :=
  match vs with
  | [] => []
  | (_, Acked _) :: rest => triggered_of rest
  | (it, Triggered) :: rest => it :: triggered_of rest
  end.

Definition nonempty {A : Type} (l : list A) : bool :=
  match l with [] => false | _ :: _ => true end.

(** The thread as the loop of lines 227-249 leaves it when [in] accepts every
    triggered message: the starter as the handlers left it, the triggered
    messages on [in] in batch order. *)
Definition after_loop (vs : list (Message * Verdict)) (st : ThreadStarter)
    (t : Thread) : Thread :=
  {| health := health t;
     state := state t;
     starter := st;
     in_ := {| items := items (in_ t) ++ triggered_of vs;
               queue_error := queue_error (in_ t) |};
     out := out t;
     dead_letter_office := dead_letter_office t;
     trace := trace t ++ map (EvEnqueue QIn) (triggered_of vs) |}.

(** The thread a STOPPED batch leaves behind when no queue fails, just before
    [run()] is looked at: the starter as the handlers left it, the triggered
    messages on [in], the acks on [out]. *)
Definition after_classification (vs : list (Message * Verdict)) (st : ThreadStarter)
    (t : Thread) : Thread :=
  {| health := health t;
     state := state t;
     starter := st;
     in_ := {| items := items (in_ t) ++ triggered_of vs; queue_error := None |};
     out := if nonempty (acks_of vs)
            then {| items := items (out t) ++ acks_of vs; queue_error := None |}
            else out t;
     dead_letter_office := dead_letter_office t;
     trace := trace t ++ map (EvEnqueue QIn) (triggered_of vs)
              ++ (if nonempty (acks_of vs) then [EvEnqueueAll QOut (acks_of vs)] else []) |}.

(** ** Observing calls and states *)

Definition is_spawn (e : Event) : bool :=
  match e with EvSpawn => true | _ => false end.
Definition is_async_send (e : Event) : bool :=
  match e with EvAsyncSend => true | _ => false end.
Definition is_wake (e : Event) : bool :=
  match e with EvWake => true | _ => false end.
Definition is_join (e : Event) : bool :=
  match e with EvJoin => true | _ => false end.
Definition is_out_batch (e : Event) : bool :=
  match e with EvEnqueueAll QOut _ => true | _ => false end.

Definition count (p : Event -> bool) (evs : list Event) : nat :=
  List.length (filter p evs).

(** The states stored by the [mark_*] calls of a trace, oldest first. *)
Fixpoint marks (evs : list Event) : list State :=
  match evs with
  | [] => []
  | EvMark s :: rest => s :: marks rest
  | _ :: rest => marks rest
  end.

(** The successor of a state in the run cycle. *)
Definition next_state (s : State) : State :=
  match s with
  | STOPPED => STARTING
  | STARTING => RUNNING
  | RUNNING => STOPPING
  | STOPPING => STOPPED
  end.


(** [in_order s l]: every state of [l] is the cycle successor of the one
    before it, [s] being the one before the first. *)
Fixpoint in_order (s : State) (l : list State) : Prop :=
  match l with
  | [] => True
  | x :: rest => x = next_state s /\ in_order x rest
  end.

(** [follows_cycle t t']: going from [t] to [t'], the trace only grew, the
    states stored on the way continue the cycle from [state t], and the state
    of [t'] is the last one stored. *)
Definition follows_cycle (t t' : Thread) : Prop :=
  exists evs,
    trace t' = trace t ++ evs /\
    in_order (state t) (marks evs) /\
    state t' = last (marks evs) (state t).

(** [quiet t t']: nothing but the starter, the queues and the trace changed,
    and no state was stored. *)
Definition quiet (t t' : Thread) : Prop :=
  state t' = state t /\ health t' = health t /\
  dead_letter_office t' = dead_letter_office t /\
  exists evs, trace t' = trace t ++ evs /\ marks evs = [].

(** ** Public operations *)

Inductive PublicOp : Type :=
| OpRun
| OpSend (m : Message)
| OpSendAll (ms : list Message)
| OpReceiveAll
| OpDrain
| OpEmit (m : Message)
| OpEmitAll (ms : list Message).

Definition error_of {V : Type} (r : Result V) : option string :=
  match r with Ok _ => None | Error e => Some e end.

(** Call a public operation; keep the error it returned, if any. *)
Definition perform (op : PublicOp) (t : Thread) : option string * Thread :=
  match op with
  | OpRun => let '(r, t') := run t in (error_of r, t')
  | OpSend m => let '(r, t') := send m t in (error_of r, t')
  | OpSendAll ms => let '(r, t') := send_all ms t in (error_of r, t')
  | OpReceiveAll => let '(r, t') := receive_all t in (error_of r, t')
  | OpDrain => let '(r, t') := drain t in (error_of r, t')
  | OpEmit m => let '(r, t') := emit m t in (error_of r, t')
  | OpEmitAll ms => let '(r, t') := emit_all ms t in (error_of r, t')
  end.

(** Call a sequence of public operations one after the other. *)
Fixpoint perform_all (ops : list PublicOp) (t : Thread)
    : list (option string) * Thread :=
  match ops with
  | [] => ([], t)
  | op :: rest =>
    let '(e, t1) := perform op t in
    let '(es, t2) := perform_all rest t1 in
    (e :: es, t2)
  end.

(** ** The worker's side of a run cycle *)








(** ** Loops over the batched operations *)

(** The failure ack of lines 230-232, for a message that is not a command. *)
Definition non_command_ack (it : Message) : Message :=
  ack it false ("Non-command message " +++ show_message it +++ " sent").

(** A caller that emits the messages of a batch one at a time, each in a
    batch of its own, instead of calling [emit_all] once. *)
Fixpoint emit_each (ms : list Message) (t : Thread) : Thread :=
  match ms with
  | [] => t
  | m :: rest => emit_each rest (snd (emit_all [m] t))
  end.

(** A caller that sends the messages of a batch one at a time, each in a
    batch of its own, instead of calling [send_all] once. *)
Fixpoint send_each (ms : list Message) (t : Thread) : Thread :=
  match ms with
  | [] => t
  | m :: rest => send_each rest (snd (send_all [m] t))
  end.

End ThreadModel.

Arguments Thread : clear implicits.

(** ** The default hooks of thread.h *)

(** Line 86: [virtual Result<> wake() { return ok_result(); }]. *)
Definition Thread_wake (calls : list Event) : Result unit := ok_result tt.

(** ** A concrete worker, for evaluating the model *)

(** The logging target a [ThreadStarter] remembers. *)
Inductive LogTarget : Type :=
| LOG_DISABLED
| LOG_FILE (path : string)
| LOG_STDERR
| LOG_STDOUT.

(** An offline handler in the manner of the watcher's worker threads: logging
    commands are recorded and acked, Add starts the thread, Remove is acked;
    a command with an unknown tag answers with that tag as its raw outcome, so
    that every branch of the classification can be exercised. *)
Definition watcher_offline (payload : CommandPayload) (st : LogTarget)
    : Result OfflineCommandOutcome * LogTarget :=
  match action payload with
  | COMMAND_LOG_FILE => (Ok OFFLINE_ACK, LOG_FILE (arg payload))
  | COMMAND_LOG_STDERR => (Ok OFFLINE_ACK, LOG_STDERR)
  | COMMAND_LOG_STDOUT => (Ok OFFLINE_ACK, LOG_STDOUT)
  | COMMAND_LOG_DISABLE => (Ok OFFLINE_ACK, LOG_DISABLED)
  | COMMAND_ADD => (Ok TRIGGER_RUN, st)
  | COMMAND_REMOVE => (Ok OFFLINE_ACK, st)
  | COMMAND_OTHER tag => (Ok (Z.of_N tag), st)
  end.

Definition UV_EINVAL : Z := -22.
Definition UV_EAGAIN : Z := -11.

Definition watcher_strerror (code : Z) : string :=
  if code =? UV_EINVAL then "invalid argument"
  else if code =? UV_EAGAIN then "resource temporarily unavailable"
  else "unknown error".

Definition watcher_show_message (m : Message) : string :=
  match m with
  | Command p => "[command " +++ arg p +++ "]"
  | Ack _ _ _ => "[ack]"
  end.

Definition watcher_show_outcome (r : Result OfflineCommandOutcome) : string :=
  match r with
  | Ok v => NilZero.string_of_int (Z.to_int v)
  | Error e => e
  end.

(** A worker whose libuv calls answer [async_code] and [spawn_code]. *)
Definition watcher (async_code spawn_code : Z) : Collaborators :=
  {| ThreadStarter := LogTarget;
     handle_offline_command := watcher_offline;
     wake := fun _ => Ok tt;
     uv_async_send := fun _ => async_code;
     uv_thread_create := fun _ => spawn_code;
     uv_strerror := watcher_strerror;
     show_message := watcher_show_message;
     show_outcome := watcher_show_outcome |}.

Definition healthy_queue (ms : list Message) : Queue :=
  {| items := ms; queue_error := None |}.

Definition failed_queue (e : string) : Queue :=
  {| items := []; queue_error := Some e |}.

(** A freshly constructed thread of the concrete worker: healthy, in state
    [s], nothing queued, nothing recorded. *)
Definition fresh (C : Collaborators) (st : @ThreadStarter C) (s : State) : Thread C :=
  {| health := None; state := s; starter := st;
     in_ := healthy_queue []; out := healthy_queue [];
     dead_letter_office := None; trace := [] |}.

Definition add_root (path : string) : Message :=
  Command {| action := COMMAND_ADD; arg := path |}.
Definition log_to_file (path : string) : Message :=
  Command {| action := COMMAND_LOG_FILE; arg := path |}.
Definition odd_command (tag : N) : Message :=
  Command {| action := COMMAND_OTHER tag; arg := "odd" |}.

(** Sample inputs. *)
Definition sample_ack : Message := Ack (add_root "/srv") true EmptyString.

(** A worker whose libuv calls succeed, one whose wake signal fails, and one
    whose thread cannot be spawned. *)
Definition steady : Collaborators := watcher 0 0.
Definition deaf : Collaborators := watcher UV_EINVAL 0.
Definition barren : Collaborators := watcher 0 UV_EAGAIN.

(** A healthy thread whose [in] queue, respectively [out] queue, has failed. *)
Definition with_failed_in (s : State) : Thread steady :=
  set_in (failed_queue "queue mutex") (fresh steady LOG_DISABLED s).
Definition with_failed_out (s : State) : Thread steady :=
  set_out (failed_queue "queue mutex") (fresh steady LOG_DISABLED s).

(** A STOPPING thread with one message caught in the race window. *)
Definition caught_stopping : Thread steady :=
  set_in (healthy_queue [add_root "/late"]) (fresh steady LOG_DISABLED STOPPING).

(** A thread on which [run()] failed to spawn the worker. *)
Definition never_started : Thread barren :=
  snd (run (fresh barren LOG_DISABLED STOPPED)).


Definition every_operation : list PublicOp :=
  [OpRun; OpSend (add_root "/srv"); OpSendAll [add_root "/a"; log_to_file "w.log"];
   OpReceiveAll; OpDrain; OpEmit sample_ack; OpEmitAll [sample_ack; sample_ack]].

(** A worker that refuses Remove while it is stopped, with an error of its
    handler, and otherwise behaves like [watcher]. *)
Definition strict_offline (payload : CommandPayload) (st : LogTarget)
    : Result OfflineCommandOutcome * LogTarget :=
  match action payload with
  | COMMAND_REMOVE => (Error "nothing is watched", st)
  | _ => watcher_offline payload st
  end.

Definition strict : Collaborators :=
  {| ThreadStarter := LogTarget;
     handle_offline_command := strict_offline;
     wake := Thread_wake;
     uv_async_send := fun _ => 0;
     uv_thread_create := fun _ => 0;
     uv_strerror := watcher_strerror;
     show_message := watcher_show_message;
     show_outcome := watcher_show_outcome |}.

Definition remove_root (path : string) : Message :=
  Command {| action := COMMAND_REMOVE; arg := path |}.

(** A STOPPING thread with a logging command and an Add caught in the race
    window. *)
Definition caught_two : Thread steady :=
  set_in (healthy_queue [log_to_file "old.log"; add_root "/late"])
    (fresh steady LOG_DISABLED STOPPING).

(** * Facts *)

Section ThreadFacts.

Context {C : Collaborators}.

Implicit Types (t : Thread C) (ms acks : list Message) (evs : list Event).

(** ** States *)

Lemma State_eqb_eq (a b : State) : State_eqb a b = true <-> a = b.
Proof. destruct a, b; simpl; split; intro H; congruence. Qed.

Lemma State_eqb_refl (a : State) : State_eqb a a = true.
Proof. now destruct a. Qed.


Lemma is_stopping_true t : is_stopping t = true <-> state t = STOPPING.
Proof. apply State_eqb_eq. Qed.

Lemma is_running_true t : is_running t = true <-> state t = RUNNING.
Proof. apply State_eqb_eq. Qed.

Lemma is_starting_true t : is_starting t = true <-> state t = STARTING.
Proof. apply State_eqb_eq. Qed.

(** ** The recorded marks *)

Lemma marks_app evs1 evs2 : marks (evs1 ++ evs2) = marks evs1 ++ marks evs2.
Proof.
  induction evs1 as [|e evs1 IH]; simpl; [reflexivity|].
  destruct e; simpl; now rewrite ?IH.
Qed.

Lemma last_cons_default (l : list State) x d d' :
  last (x :: l) d = last (x :: l) d'.
Proof.
  revert x; induction l as [|y l IH]; intro x; [reflexivity|].
  change (last (y :: l) d = last (y :: l) d'). apply IH.
Qed.

Lemma last_cons (l : list State) x d : last (x :: l) d = last l x.
Proof.
  destruct l as [|y l]; [reflexivity|].
  change (last (y :: l) d = last (y :: l) x). apply last_cons_default.
Qed.

Lemma in_order_app s l1 l2 :
  in_order s l1 -> in_order (last l1 s) l2 -> in_order s (l1 ++ l2).
Proof.
  revert s; induction l1 as [|x l1 IH]; intros s H1 H2; [assumption|].
  destruct H1 as [-> H1]. rewrite last_cons in H2.
  split; [reflexivity|]. now apply IH.
Qed.

Lemma last_app_default (l1 l2 : list State) s :
  last (l1 ++ l2) s = last l2 (last l1 s).
Proof.
  revert s; induction l1 as [|x l1 IH]; intro s; [reflexivity|].
  rewrite <- app_comm_cons, !last_cons. apply IH.
Qed.


Lemma quiet_refl t : quiet t t.
Proof. repeat split. exists []. now rewrite app_nil_r. Qed.

Lemma quiet_trans t1 t2 t3 : quiet t1 t2 -> quiet t2 t3 -> quiet t1 t3.
Proof.
  intros (Hs & Hh & Hd & evs & Ht & Hm) (Hs' & Hh' & Hd' & evs' & Ht' & Hm').
  repeat split; try congruence.
  exists (evs ++ evs'). rewrite Ht', Ht, app_assoc, marks_app, Hm, Hm'. now split.
Qed.

Lemma quiet_follows t t' : quiet t t' -> follows_cycle t t'.
Proof.
  intros (Hs & _ & _ & evs & Ht & Hm). exists evs. rewrite Hm. simpl. auto.
Qed.

Lemma follows_refl t : follows_cycle t t.
Proof. apply quiet_follows, quiet_refl. Qed.

Lemma follows_trans t1 t2 t3 :
  follows_cycle t1 t2 -> follows_cycle t2 t3 -> follows_cycle t1 t3.
Proof.
  intros (evs & Ht & Ho & Hs) (evs' & Ht' & Ho' & Hs').
  exists (evs ++ evs'). rewrite Ht', Ht, app_assoc, marks_app. split; [reflexivity|].
  split.
  - apply in_order_app; [assumption|]. now rewrite <- Hs.
  - now rewrite last_app_default, <- Hs.
Qed.


Lemma follows_mark t s :
  s = next_state (state t) ->
  follows_cycle t (record_event (EvMark s) (set_state s t)).
Proof. intros ->. exists [EvMark (next_state (state t))]. simpl. auto. Qed.

(** ** Frames of the primitive calls *)

Lemma quiet_in_enqueue m t : quiet t (snd (in_enqueue m t)).
Proof.
  unfold in_enqueue. destruct (Queue_enqueue m (in_ t)) as [r q]. simpl.
  repeat split. now exists [EvEnqueue QIn m].
Qed.

Lemma quiet_in_enqueue_all ms t : quiet t (snd (in_enqueue_all ms t)).
Proof.
  unfold in_enqueue_all. destruct (Queue_enqueue_all ms (in_ t)) as [r q]. simpl.
  repeat split. now exists [EvEnqueueAll QIn ms].
Qed.

Lemma quiet_out_enqueue_all ms t : quiet t (snd (out_enqueue_all ms t)).
Proof.
  unfold out_enqueue_all. destruct (Queue_enqueue_all ms (out t)) as [r q]. simpl.
  repeat split. now exists [EvEnqueueAll QOut ms].
Qed.

Lemma quiet_call_wake t : quiet t (snd (call_wake t)).
Proof. unfold call_wake. simpl. repeat split. now exists [EvWake]. Qed.

Lemma quiet_set_starter st t : quiet t (set_starter st t).
Proof. repeat split. exists []. simpl. now rewrite app_nil_r. Qed.

Lemma quiet_classify ms : forall acks should_run t,
  quiet t (snd (classify ms acks should_run t)).
Proof.
  induction ms as [|it rest IH]; intros acks should_run t; simpl.
  - apply quiet_refl.
  - destruct (as_command it) as [command|]; [|apply IH].
    destruct (handle_offline_command command (starter t)) as [r0 st].
    assert (Hst : quiet t (set_starter st t)) by apply quiet_set_starter.
    destruct r0 as [v|e].
    + destruct (v =? OFFLINE_ACK).
      * eapply quiet_trans; [exact Hst|apply IH].
      * destruct (v =? TRIGGER_RUN).
        -- pose proof (quiet_in_enqueue it (set_starter st t)) as Hq.
           destruct (in_enqueue it (set_starter st t)) as [r1 t1]. simpl in Hq.
           assert (Ht1 : quiet t t1) by exact (quiet_trans _ _ _ Hst Hq).
           destruct r1; simpl; [|assumption].
           eapply quiet_trans; [exact Ht1|apply IH].
        -- eapply quiet_trans; [exact Hst|apply IH].
    + eapply quiet_trans; [exact Hst|apply IH].
Qed.

Lemma quiet_send_all_enqueue ms t : quiet t (snd (send_all_enqueue ms t)).
Proof.
  unfold send_all_enqueue.
  pose proof (quiet_in_enqueue_all ms t) as Hq.
  destruct (in_enqueue_all ms t) as [r3 t1]. simpl in Hq.
  destruct r3; simpl; [|assumption].
  destruct (is_running t1); simpl; [|assumption].
  exact (quiet_trans _ _ _ Hq (quiet_call_wake t1)).
Qed.


Lemma quiet_receive_all t : quiet t (snd (receive_all t)).
Proof.
  unfold receive_all. destruct (negb (is_healthy t)); [apply quiet_refl|].
  destruct (Queue_dequeue_all (out t)) as [batch q]. simpl.
  repeat split. exists []. now rewrite app_nil_r.
Qed.

(** ** The lifecycle members *)

Lemma run_follows t : state t = STOPPED -> follows_cycle t (snd (run t)).
Proof.
  intro Hs. unfold run. destruct (negb (is_healthy t)); [apply follows_refl|].
  assert (H1 : follows_cycle t (record_event EvSpawn (mark_starting t))).
  { exists [EvMark STARTING; EvSpawn]. unfold mark_starting. simpl.
    rewrite Hs, <- app_assoc. simpl. auto. }
  destruct (uv_thread_create (trace (mark_starting t)) =? 0); simpl; [assumption|].
  unfold report_error.
  destruct (health (record_event EvSpawn (mark_starting t))); assumption.
Qed.

Lemma run_dead_letter_office t :
  dead_letter_office (snd (run t)) = dead_letter_office t.
Proof.
  unfold run. destruct (negb (is_healthy t)); [reflexivity|].
  destruct (uv_thread_create (trace (mark_starting t)) =? 0); simpl; [reflexivity|].
  unfold report_error.
  destruct (health (record_event EvSpawn (mark_starting t))); reflexivity.
Qed.

Lemma capture_dead_letters_frame t :
  state (capture_dead_letters t) = state t /\
  health (capture_dead_letters t) = health t /\
  trace (capture_dead_letters t) = trace t.
Proof.
  unfold capture_dead_letters.
  destruct (Queue_dequeue_all (in_ t)) as [[batch|] q]; simpl; auto.
Qed.


Lemma worker_exit_health t : health (worker_exit t) = health t.
Proof. unfold worker_exit. simpl. apply capture_dead_letters_frame. Qed.

Lemma worker_exit_trace t : trace (worker_exit t) = trace t ++ [EvMark STOPPED].
Proof.
  unfold worker_exit. simpl. f_equal. apply capture_dead_letters_frame.
Qed.

Lemma worker_exit_follows t : state t = STOPPING -> follows_cycle t (worker_exit t).
Proof.
  intro Hs. exists [EvMark STOPPED]. rewrite worker_exit_trace. simpl.
  rewrite Hs. auto.
Qed.

Lemma uv_thread_join_state t : state (uv_thread_join t) = STOPPED.
Proof. reflexivity. Qed.

Lemma uv_thread_join_health t : health (uv_thread_join t) = health t.
Proof. unfold uv_thread_join. now rewrite worker_exit_health. Qed.

Lemma is_healthy_after_join d t :
  is_healthy (set_dead_letter_office d (uv_thread_join t)) = is_healthy t.
Proof.
  unfold is_healthy. change (health (set_dead_letter_office d (uv_thread_join t)))
    with (health (uv_thread_join t)). now rewrite uv_thread_join_health.
Qed.

Lemma uv_thread_join_trace t :
  trace (uv_thread_join t) = trace t ++ [EvJoin; EvMark STOPPED].
Proof.
  unfold uv_thread_join. rewrite worker_exit_trace. simpl.
  now rewrite <- app_assoc.
Qed.


(** ** [send_all] *)

Lemma send_all_stopped_follows ms t :
  state t = STOPPED -> follows_cycle t (snd (send_all_stopped ms t)).
Proof.
  intro Hs. unfold send_all_stopped.
  pose proof (quiet_classify ms [] false t) as Hc.
  destruct (classify ms [] false t) as [[[acks should_run]|e] t1]; simpl in Hc;
    [|now apply quiet_follows].
  set (some_acks := negb match acks with [] => true | _ => false end).
  assert (Ho : quiet t1 (snd (if some_acks then out_enqueue_all acks t1 else (Ok tt, t1)))).
  { destruct some_acks; [apply quiet_out_enqueue_all|apply quiet_refl]. }
  destruct (if some_acks then out_enqueue_all acks t1 else (Ok tt, t1)) as [r2 t2].
  simpl in Ho. pose proof (quiet_trans _ _ _ Hc Ho) as Hq.
  destruct r2; simpl; [|now apply quiet_follows].
  destruct should_run; simpl; [|now apply quiet_follows].
  pose proof (run_follows t2) as Hr.
  destruct (run t2) as [rr t3]. simpl in *.
  eapply follows_trans; [apply quiet_follows; exact Hq|].
  apply Hr. destruct Hq as [Hq _]. congruence.
Qed.

Lemma send_all_stopped_dead_letter_office ms t :
  dead_letter_office (snd (send_all_stopped ms t)) = dead_letter_office t.
Proof.
  unfold send_all_stopped.
  pose proof (quiet_classify ms [] false t) as Hc.
  destruct (classify ms [] false t) as [[[acks should_run]|e] t1]; simpl in Hc;
    [|apply Hc].
  set (some_acks := negb match acks with [] => true | _ => false end).
  assert (Ho : quiet t1 (snd (if some_acks then out_enqueue_all acks t1 else (Ok tt, t1)))).
  { destruct some_acks; [apply quiet_out_enqueue_all|apply quiet_refl]. }
  destruct (if some_acks then out_enqueue_all acks t1 else (Ok tt, t1)) as [r2 t2].
  simpl in Ho. pose proof (quiet_trans _ _ _ Hc Ho) as Hq.
  destruct r2; simpl; [|apply Hq].
  destruct should_run; simpl; [|apply Hq].
  pose proof (run_dead_letter_office t2) as Hr.
  destruct (run t2) as [rr t3]. simpl in *.
  rewrite Hr. apply Hq.
Qed.


(** A call that does not observe STOPPING never reaches line 219. *)
Lemma send_all_body_not_stopping self self' ms t :
  is_stopping t = false ->
  send_all_body self ms t = send_all_body self' ms t.
Proof. intro H. unfold send_all_body. now rewrite H. Qed.

(** The definition of [send_all] satisfies the recursive equation of the
    source: two levels of unrolling are all that a call can use. *)
Lemma send_all_unfold ms t : send_all ms t = send_all_body send_all ms t.
Proof.
  unfold send_all. simpl send_all_fuel.
  unfold send_all_body at 1 3.
  destruct (negb (is_healthy t)); [reflexivity|].
  destruct (is_stopping t); [|reflexivity].
  destruct (dead_letter_office (uv_thread_join t)) as [dl|]; [|reflexivity].
  apply send_all_body_not_stopping. reflexivity.
Qed.

Lemma send_all_fuel_enough n ms t : send_all_fuel (2 + n) ms t = send_all ms t.
Proof.
  rewrite send_all_unfold. simpl send_all_fuel.
  unfold send_all_body at 1 3.
  destruct (negb (is_healthy t)); [reflexivity|].
  destruct (is_stopping t); [|reflexivity].
  destruct (dead_letter_office (uv_thread_join t)) as [dl|]; [|reflexivity].
  rewrite send_all_unfold.
  apply send_all_body_not_stopping. reflexivity.
Qed.

(** On a healthy thread that is not STOPPING, [send_all] is the dispatch of
    lines 223-270. *)
Lemma send_all_not_stopping ms t :
  is_healthy t = true -> is_stopping t = false ->
  send_all ms t = send_all_dispatch ms t.
Proof.
  intros Hh Hs. rewrite send_all_unfold. unfold send_all_body. now rewrite Hh, Hs.
Qed.

Lemma send_all_on_stopped ms t :
  is_healthy t = true -> state t = STOPPED ->
  send_all ms t = send_all_stopped ms t.
Proof.
  intros Hh Hs. rewrite send_all_not_stopping; trivial.
  - unfold send_all_dispatch, is_stopped. now rewrite Hs.
  - unfold is_stopping. now rewrite Hs.
Qed.

Lemma send_all_unhealthy ms t :
  is_healthy t = false -> send_all ms t = (health_err_result t, t).
Proof. intro Hh. rewrite send_all_unfold. unfold send_all_body. now rewrite Hh. Qed.


(** ** Health *)

Lemma perform_unhealthy op t :
  is_healthy t = false -> perform op t = (Some (get_error t), t).
Proof.
  intro Hh. destruct op; simpl; unfold send, drain, emit;
    rewrite ?send_all_unhealthy by assumption; trivial;
    unfold run, receive_all, emit_all; now rewrite Hh.
Qed.

(** C2. On a thread that holds a health error, every public operation ([run],
    [send], [send_all], [receive_all], [drain], [emit], [emit_all]), and so
    every sequence of them, returns that stored error and leaves the thread
    exactly as it was: queues, state, dead letters and the trace of joins,
    wakes and enqueues are all untouched. *)
Theorem unhealthy_thread_short_circuits (ops : list PublicOp) t :
  is_healthy t = false ->
  perform_all ops t = (repeat (Some (get_error t)) (List.length ops), t).
Proof.
  intro Hh. induction ops as [|op ops IH]; simpl; [reflexivity|].
  rewrite perform_unhealthy by assumption. now rewrite IH.
Qed.

(** ** Replay of dead letters *)

(** C1. A [send_all] on a healthy thread that observes STOPPING joins the
    worker before anything else; if the dead letter office then holds a
    buffer, the buffer is taken (the office is left absent), the new messages
    are appended after the dead letters in the order supplied, and the
    combined batch goes through the classification of a STOPPED thread, the
    very path [send_all] takes on a thread found STOPPED. *)
Theorem send_all_stopping_replays_dead_letters ms (dl : list Message) t :
  is_healthy t = true ->
  state t = STOPPING ->
  dead_letter_office (uv_thread_join t) = Some dl ->
  let joined := set_dead_letter_office None (uv_thread_join t) in
  send_all ms t = send_all_stopped (dl ++ ms) joined /\
  send_all (dl ++ ms) joined = send_all_stopped (dl ++ ms) joined /\
  state joined = STOPPED /\
  dead_letter_office (snd (send_all ms t)) = None /\
  exists evs, trace (snd (send_all ms t)) = trace t ++ EvJoin :: evs.
Proof.
  intros Hh Hs Hd joined.
  assert (Hj : is_healthy joined = true) by (unfold joined; now rewrite is_healthy_after_join).
  assert (E2 : send_all (dl ++ ms) joined = send_all_stopped (dl ++ ms) joined)
    by (now apply send_all_on_stopped).
  assert (E1 : send_all ms t = send_all_stopped (dl ++ ms) joined).
  { rewrite send_all_unfold. unfold send_all_body.
    apply is_stopping_true in Hs. rewrite Hh, Hs. simpl negb. cbv iota.
    rewrite Hd. exact E2. }
  repeat split; trivial.
  - rewrite E1, send_all_stopped_dead_letter_office. reflexivity.
  - rewrite E1.
    destruct (send_all_stopped_follows (dl ++ ms) joined eq_refl) as (evs & Ht & _).
    exists (EvMark STOPPED :: evs). rewrite Ht.
    change (trace joined) with (trace (uv_thread_join t)).
    rewrite uv_thread_join_trace, <- app_assoc. reflexivity.
Qed.

(** ** [receive_all] *)

(** C9. On a healthy thread [receive_all] takes the whole content of [out] and
    leaves [out] empty; with nothing waiting the result is absent, and a
    present result is never an empty batch. *)
Theorem receive_all_takes_everything t :
  is_healthy t = true ->
  fst (receive_all t) =
    Ok (match items (out t) with [] => None | _ :: _ => Some (items (out t)) end) /\
  items (out (snd (receive_all t))) = [] /\
  fst (receive_all t) <> Ok (Some []) /\
  (items (out t) = [] -> receive_all t = (Ok None, t)).
Proof.
  intro Hh. unfold receive_all, Queue_dequeue_all. rewrite Hh. simpl negb. cbv iota.
  destruct t as [h s st i [its qe] d tr]. simpl.
  destruct its as [|m its]; simpl; repeat split; trivial; discriminate.
Qed.

(** ** Classification of a STOPPED batch *)

Lemma classify_health ms acks should_run t :
  health (snd (classify ms acks should_run t)) = health t.
Proof. apply (quiet_classify ms acks should_run t). Qed.

(** The acks buffered so far are never dropped by the rest of the loop. *)
Lemma classify_keeps_acks ms : forall acks should_run t acks' should_run' t',
  classify ms acks should_run t = (Ok (acks', should_run'), t') ->
  exists more, acks' = acks ++ more.
Proof.
  induction ms as [|it rest IH]; intros acks should_run t acks' should_run' t' H;
    simpl in H.
  - injection H as <- _ _. exists []. now rewrite app_nil_r.
  - assert (Hstep : forall a sr t0,
              classify rest (acks ++ [a]) sr t0 = (Ok (acks', should_run'), t') ->
              exists more, acks' = acks ++ more).
    { intros a sr t0 H0. destruct (IH _ _ _ _ _ _ H0) as [more ->].
      exists (a :: more). now rewrite <- app_assoc. }
    destruct (as_command it) as [command|]; [|now apply Hstep in H].
    destruct (handle_offline_command command (starter t)) as [r0 st].
    destruct r0 as [v|e]; [|now apply Hstep in H].
    destruct (v =? OFFLINE_ACK); [now apply Hstep in H|].
    destruct (v =? TRIGGER_RUN); [|now apply Hstep in H].
    destruct (in_enqueue it (set_starter st t)) as [[u|e] t1]; [|discriminate].
    now apply IH in H.
Qed.

Lemma verdicts_cons it rest (st : ThreadStarter) :
  verdicts (it :: rest) st =
    ((it, fst (verdict it st)) :: fst (verdicts rest (snd (verdict it st))),
     snd (verdicts rest (snd (verdict it st)))).
Proof.
  simpl. destruct (verdict it st) as [v st1]. simpl.
  now destruct (verdicts rest st1).
Qed.

Lemma after_loop_nil t : after_loop [] (starter t) t = t.
Proof.
  destruct t as [h s st [its qe] o d tr]. unfold after_loop. simpl.
  now rewrite !app_nil_r.
Qed.

(** With a healthy [in], the loop of the source computes the verdicts. *)
Lemma classify_healthy ms : forall acks should_run t,
  queue_error (in_ t) = None ->
  classify ms acks should_run t =
    (Ok (acks ++ acks_of (fst (verdicts ms (starter t))),
         should_run || nonempty (triggered_of (fst (verdicts ms (starter t))))),
     after_loop (fst (verdicts ms (starter t))) (snd (verdicts ms (starter t))) t).
Proof.
  induction ms as [|it rest IH]; intros acks should_run t Hq.
  - simpl. now rewrite app_nil_r, orb_false_r, after_loop_nil.
  - rewrite verdicts_cons. simpl classify. unfold verdict.
    assert (Hack : forall a st,
      classify rest (acks ++ [a]) should_run (set_starter st t) =
      (Ok (acks ++ acks_of ((it, Acked a) :: fst (verdicts rest st)),
           should_run || nonempty (triggered_of ((it, Acked a) :: fst (verdicts rest st)))),
       after_loop ((it, Acked a) :: fst (verdicts rest st)) (snd (verdicts rest st)) t)).
    { intros a st. rewrite IH by exact Hq. simpl. now rewrite <- app_assoc. }
    destruct (as_command it) as [command|].
    + destruct (handle_offline_command command (starter t)) as [r0 st].
      destruct r0 as [v|e]; [|apply Hack].
      destruct (v =? OFFLINE_ACK); [apply Hack|].
      destruct (v =? TRIGGER_RUN); [|apply Hack].
      unfold in_enqueue, Queue_enqueue, Queue_enqueue_all. simpl in_.
      rewrite Hq. rewrite IH by reflexivity. simpl.
      rewrite orb_true_r. unfold after_loop. simpl.
      rewrite <- !app_assoc. simpl. now rewrite Hq.
    + specialize (Hack (ack it false ("Non-command message " +++ show_message it +++ " sent"))
                       (starter t)).
      replace (set_starter (starter t) t) with t in Hack by now destruct t.
      exact Hack.
Qed.

Lemma run_healthy_trace t :
  is_healthy t = true -> trace (snd (run t)) = trace t ++ [EvMark STARTING; EvSpawn].
Proof.
  intro Hh. unfold run. rewrite Hh. simpl negb. cbv iota.
  assert (E : trace (record_event EvSpawn (mark_starting t))
              = trace t ++ [EvMark STARTING; EvSpawn])
    by (simpl; now rewrite <- app_assoc).
  destruct (uv_thread_create (trace (mark_starting t)) =? 0); simpl snd; [exact E|].
  unfold report_error.
  destruct (health (record_event EvSpawn (mark_starting t))); exact E.
Qed.

Lemma send_all_stopped_healthy_queues ms t :
  queue_error (in_ t) = None ->
  queue_error (out t) = None ->
  let vs := fst (verdicts ms (starter t)) in
  let classified := after_classification vs (snd (verdicts ms (starter t))) t in
  send_all_stopped ms t =
    if nonempty (triggered_of vs)
    then (propagate (fst (run classified)) (nonempty (acks_of vs)), snd (run classified))
    else (Ok (nonempty (acks_of vs)), classified).
Proof.
  intros Hi Ho vs classified. unfold send_all_stopped.
  rewrite classify_healthy by exact Hi. fold vs. simpl app. simpl orb.
  set (st := snd (verdicts ms (starter t))) in *.
  assert (Hne : negb match acks_of vs with [] => true | _ :: _ => false end
                = nonempty (acks_of vs)) by now destruct (acks_of vs).
  rewrite Hne.
  assert (Hout : (if nonempty (acks_of vs)
                  then out_enqueue_all (acks_of vs) (after_loop vs st t)
                  else (Ok tt, after_loop vs st t)) = (Ok tt, classified)).
  { unfold classified, after_classification.
    destruct (nonempty (acks_of vs)) eqn:Ha.
    - unfold out_enqueue_all, Queue_enqueue_all. simpl out. rewrite Ho.
      unfold after_loop, record_event, set_out. simpl.
      rewrite <- app_assoc. now rewrite Hi.
    - unfold after_loop. simpl. rewrite app_nil_r. now rewrite Hi. }
  rewrite Hout.
  destruct (nonempty (triggered_of vs)); [|reflexivity].
  now destruct (run classified).
Qed.

(** C3, as the code has it. On a healthy STOPPED thread whose queues accept
    what is enqueued, [send_all] enqueues on [in], in batch order, exactly the
    messages whose offline handling answered TRIGGER_RUN, hands the acks of
    all the others to [out] in one batch, and then calls [run()] if and only
    if some message triggered; the boolean of an ok result says whether any
    ack was produced, whether or not the thread was started. *)
Theorem stopped_batch_runs_and_acks_independently ms t :
  is_healthy t = true ->
  state t = STOPPED ->
  queue_error (in_ t) = None ->
  queue_error (out t) = None ->
  let vs := fst (verdicts ms (starter t)) in
  let classified := after_classification vs (snd (verdicts ms (starter t))) t in
  send_all ms t =
    (if nonempty (triggered_of vs)
     then (propagate (fst (run classified)) (nonempty (acks_of vs)), snd (run classified))
     else (Ok (nonempty (acks_of vs)), classified)) /\
  trace (snd (send_all ms t)) =
    trace t ++ map (EvEnqueue QIn) (triggered_of vs)
            ++ (if nonempty (acks_of vs) then [EvEnqueueAll QOut (acks_of vs)] else [])
            ++ (if nonempty (triggered_of vs) then [EvMark STARTING; EvSpawn] else []) /\
  (forall b : bool, fst (send_all ms t) = Ok b -> b = nonempty (acks_of vs)).
Proof.
  intros Hh Hs Hi Ho vs classified.
  assert (E : send_all ms t =
    (if nonempty (triggered_of vs)
     then (propagate (fst (run classified)) (nonempty (acks_of vs)), snd (run classified))
     else (Ok (nonempty (acks_of vs)), classified))).
  { rewrite send_all_on_stopped by assumption.
    now apply send_all_stopped_healthy_queues. }
  split; [exact E|]. rewrite E. split.
  - destruct (nonempty (triggered_of vs)); simpl snd.
    + rewrite run_healthy_trace by exact Hh.
      unfold classified, after_classification. simpl trace.
      now rewrite <- !app_assoc.
    + unfold classified, after_classification. simpl trace.
      now rewrite app_nil_r.
  - intros b Hb. destruct (nonempty (triggered_of vs)); simpl fst in Hb.
    + destruct (fst (run classified)); simpl in Hb; congruence.
    + congruence.
Qed.

(** ** [emit_all] *)

(** C7, as the code has it. For a batch of any size, [emit_all] on a healthy
    thread hands the batch to [out] in exactly one [enqueue_all]; when that
    enqueue succeeds it triggers the wake signal exactly once, and when it
    fails it returns the queue's error without triggering it. *)
Theorem emit_all_enqueues_once_and_wakes_once ms t :
  is_healthy t = true ->
  trace (snd (emit_all ms t)) =
    trace t ++ EvEnqueueAll QOut ms
            :: (match queue_error (out t) with None => [EvAsyncSend] | Some _ => [] end) /\
  items (out (snd (emit_all ms t))) =
    (match queue_error (out t) with
     | None => items (out t) ++ ms
     | Some _ => items (out t)
     end) /\
  (forall e, queue_error (out t) = Some e -> fst (emit_all ms t) = Error e).
Proof.
  intro Hh. unfold emit_all, out_enqueue_all, Queue_enqueue_all.
  rewrite Hh. simpl negb. cbv iota.
  destruct (queue_error (out t)) as [e|]; simpl.
  - repeat split. intros e' H. congruence.
  - destruct (negb (uv_async_send (trace t ++ [EvEnqueueAll QOut ms]) =? 0)); simpl;
      rewrite <- app_assoc; repeat split; discriminate.
Qed.

(** C6, as the code has it. When [uv_async_send] fails inside [emit_all], the
    call returns an error result carrying libuv's text for the code; the batch
    is already on [out], and no error is stored: the instance is as healthy as
    before. *)
Theorem emit_all_wake_failure_is_not_stored ms t :
  is_healthy t = true ->
  queue_error (out t) = None ->
  uv_async_send (trace t ++ [EvEnqueueAll QOut ms]) <> 0 ->
  fst (emit_all ms t) =
    Error (uv_strerror (uv_async_send (trace t ++ [EvEnqueueAll QOut ms]))) /\
  items (out (snd (emit_all ms t))) = items (out t) ++ ms /\
  health (snd (emit_all ms t)) = health t /\
  is_healthy (snd (emit_all ms t)) = true.
Proof.
  intros Hh Ho Hne. unfold emit_all, out_enqueue_all, Queue_enqueue_all.
  rewrite Hh, Ho. simpl negb. cbv iota. simpl.
  destruct (Z.eqb_spec (uv_async_send (trace t ++ [EvEnqueueAll QOut ms])) 0)
    as [E|_]; [contradiction|].
  simpl. repeat split. exact Hh.
Qed.

(** ** [send_all] on a STARTING thread *)

(** C10, as the code has it. On a healthy STARTING thread [send_all] offers
    the batch to [in] in one [enqueue_all] and makes no other call, so no wake
    hint is issued; when the enqueue succeeds the batch is on [in] in order
    and the call returns false, when it fails the call returns the queue's
    error. *)
Theorem send_all_starting_only_enqueues ms t :
  is_healthy t = true ->
  state t = STARTING ->
  trace (snd (send_all ms t)) = trace t ++ [EvEnqueueAll QIn ms] /\
  state (snd (send_all ms t)) = STARTING /\
  match queue_error (in_ t) with
  | None =>
    fst (send_all ms t) = Ok false /\
    items (in_ (snd (send_all ms t))) = items (in_ t) ++ ms
  | Some e =>
    fst (send_all ms t) = Error e /\
    items (in_ (snd (send_all ms t))) = items (in_ t)
  end.
Proof.
  intros Hh Hs.
  rewrite send_all_not_stopping;
    [|exact Hh|unfold is_stopping; now rewrite Hs].
  unfold send_all_dispatch, is_stopped. rewrite Hs. simpl State_eqb. cbv iota.
  unfold send_all_enqueue, in_enqueue_all, Queue_enqueue_all.
  destruct (queue_error (in_ t)) as [e|]; simpl.
  - auto.
  - unfold is_running. simpl. rewrite Hs. simpl. auto.
Qed.

(** ** Further facts *)

(** A message triggers exactly when it is a command whose offline handler
    answers TRIGGER_RUN. *)
Lemma verdict_triggered it (st st' : ThreadStarter) :
  verdict it st = (Triggered, st') <->
  exists command,
    as_command it = Some command /\
    handle_offline_command command st = (Ok TRIGGER_RUN, st').
Proof.
  unfold verdict. destruct (as_command it) as [command|].
  - destruct (handle_offline_command command st) as [[v|e] st1] eqn:Hr.
    + destruct (Z.eqb_spec v OFFLINE_ACK) as [E0|N0];
        [|destruct (Z.eqb_spec v TRIGGER_RUN) as [E1|N1]].
      * split; [discriminate|]. intros (c & Hc & Hh).
        injection Hc as <-. rewrite Hr in Hh.
        unfold OFFLINE_ACK, TRIGGER_RUN in *. congruence.
      * split.
        -- intro H. injection H as <-. exists command.
           split; [reflexivity|]. rewrite Hr. now rewrite E1.
        -- intros (c & Hc & Hh). injection Hc as <-. rewrite Hr in Hh. congruence.
      * split; [discriminate|]. intros (c & Hc & Hh).
        injection Hc as <-. rewrite Hr in Hh. congruence.
    + split; [discriminate|]. intros (c & Hc & Hh).
      injection Hc as <-. rewrite Hr in Hh. discriminate.
  - split; [discriminate|]. intros (c & Hc & _). discriminate.
Qed.

(** A failure to spawn the worker is stored: [run()] returns the stored error
    and leaves the thread unhealthy. *)
Lemma run_failure_is_stored t e :
  is_healthy t = true ->
  fst (run t) = Error e ->
  is_healthy (snd (run t)) = false /\ get_error (snd (run t)) = e.
Proof.
  intros Hh. unfold run. rewrite Hh. simpl negb. cbv iota.
  destruct (uv_thread_create (trace (mark_starting t)) =? 0); simpl; [discriminate|].
  unfold is_healthy in Hh. unfold report_error, health_err_result, get_error, is_healthy.
  simpl. destruct (health t); [discriminate|]. simpl.
  intro H. injection H as <-. auto.
Qed.

Lemma run_queues t : in_ (snd (run t)) = in_ t /\ out (snd (run t)) = out t.
Proof.
  unfold run. destruct (negb (is_healthy t)); [auto|].
  destruct (uv_thread_create (trace (mark_starting t)) =? 0); simpl; [auto|].
  unfold report_error.
  destruct (health (record_event EvSpawn (mark_starting t))); auto.
Qed.

Lemma verdicts_cover ms : forall st : ThreadStarter,
  map fst (fst (verdicts ms st)) = ms /\
  (List.length (acks_of (fst (verdicts ms st)))
   + List.length (triggered_of (fst (verdicts ms st))) = List.length ms)%nat /\
  Forall (fun p => match snd p with
                   | Acked a => answered a = Some (fst p)
                   | Triggered => True
                   end) (fst (verdicts ms st)).
Proof.
  induction ms as [|it rest IH]; intro st.
  - simpl. auto.
  - rewrite verdicts_cons. cbn [fst snd map].
    destruct (IH (snd (verdict it st))) as (H1 & H2 & H3).
    rewrite H1. split; [reflexivity|].
    assert (Hv : match fst (verdict it st) with
                 | Acked a => answered a = Some it
                 | Triggered => True
                 end).
    { unfold verdict. destruct (as_command it); [|reflexivity].
      destruct (handle_offline_command c st) as [[v|e] st1]; [|reflexivity].
      destruct (v =? OFFLINE_ACK); [reflexivity|].
      now destruct (v =? TRIGGER_RUN). }
    split.
    + destruct (fst (verdict it st)); simpl; lia.
    + constructor; assumption.
Qed.

(** X1. Every message of a batch sent to a healthy STOPPED thread whose queues
    accept what is enqueued ends up in exactly one place: answered by an ack
    on [out], or waiting on [in] for the worker; each kind keeps the order of
    the batch. *)
Theorem stopped_batch_loses_no_message ms t :
  is_healthy t = true ->
  state t = STOPPED ->
  queue_error (in_ t) = None ->
  queue_error (out t) = None ->
  let vs := fst (verdicts ms (starter t)) in
  map fst vs = ms /\
  Forall (fun p => match snd p with
                   | Acked a => answered a = Some (fst p)
                   | Triggered => True
                   end) vs /\
  items (in_ (snd (send_all ms t))) = items (in_ t) ++ triggered_of vs /\
  items (out (snd (send_all ms t))) = items (out t) ++ acks_of vs /\
  (List.length (acks_of vs) + List.length (triggered_of vs) = List.length ms)%nat.
Proof.
  intros Hh Hs Hi Ho vs.
  destruct (verdicts_cover ms (starter t)) as (H1 & H2 & H3).
  rewrite send_all_on_stopped by assumption.
  rewrite send_all_stopped_healthy_queues by assumption. fold vs.
  set (classified := after_classification vs (snd (verdicts ms (starter t))) t).
  assert (Hin : items (in_ classified) = items (in_ t) ++ triggered_of vs) by reflexivity.
  assert (Hout : items (out classified) = items (out t) ++ acks_of vs).
  { unfold classified, after_classification. simpl out.
    destruct (acks_of vs); simpl; [now rewrite app_nil_r|reflexivity]. }
  repeat split; trivial.
  - destruct (nonempty (triggered_of vs)); simpl snd; [|exact Hin].
    destruct (run_queues classified) as [-> _]. exact Hin.
  - destruct (nonempty (triggered_of vs)); simpl snd; [|exact Hout].
    destruct (run_queues classified) as [_ ->]. exact Hout.
Qed.

(** X3. On a healthy RUNNING thread whose [in] accepts the batch, [send_all]
    enqueues the batch in one [enqueue_all], then hints the worker with one
    [wake()], and returns false unless [wake()] reported an error. *)
Theorem send_all_running_enqueues_and_wakes ms t :
  is_healthy t = true ->
  state t = RUNNING ->
  queue_error (in_ t) = None ->
  trace (snd (send_all ms t)) = trace t ++ [EvEnqueueAll QIn ms; EvWake] /\
  items (in_ (snd (send_all ms t))) = items (in_ t) ++ ms /\
  fst (send_all ms t) = propagate (wake (trace t ++ [EvEnqueueAll QIn ms])) false.
Proof.
  intros Hh Hs Hq.
  rewrite send_all_not_stopping;
    [|exact Hh|unfold is_stopping; now rewrite Hs].
  unfold send_all_dispatch, is_stopped. rewrite Hs. simpl State_eqb. cbv iota.
  unfold send_all_enqueue, in_enqueue_all, Queue_enqueue_all. rewrite Hq.
  unfold is_running. simpl. rewrite Hs. simpl. rewrite <- app_assoc. auto.
Qed.

(** X4. A [send_all] that observes STOPPING and finds no dead letters after
    the join classifies its own batch as for a STOPPED thread. *)
Theorem send_all_stopping_without_dead_letters ms t :
  is_healthy t = true ->
  state t = STOPPING ->
  dead_letter_office (uv_thread_join t) = None ->
  send_all ms t = send_all_stopped ms (uv_thread_join t).
Proof.
  intros Hh Hs Hd. rewrite send_all_unfold. unfold send_all_body.
  apply is_stopping_true in Hs. rewrite Hh, Hs. simpl negb. cbv iota.
  rewrite Hd. reflexivity.
Qed.

(** ** What the operations leave alone *)

Lemma classify_out ms : forall acks should_run t,
  out (snd (classify ms acks should_run t)) = out t.
Proof.
  induction ms as [|it rest IH]; intros acks should_run t; simpl; [reflexivity|].
  destruct (as_command it) as [command|]; [|apply IH].
  destruct (handle_offline_command command (starter t)) as [[v|e] st];
    [|now rewrite IH].
  destruct (v =? OFFLINE_ACK); [now rewrite IH|].
  destruct (v =? TRIGGER_RUN); [|now rewrite IH].
  unfold in_enqueue. destruct (Queue_enqueue it (in_ (set_starter st t))) as [[u|e] q];
    simpl; [now rewrite IH|reflexivity].
Qed.

Lemma uv_thread_join_out t : out (uv_thread_join t) = out t.
Proof.
  unfold uv_thread_join, worker_exit, capture_dead_letters. simpl.
  now destruct (Queue_dequeue_all (in_ t)) as [[batch|] q].
Qed.

Lemma uv_thread_join_starter t : starter (uv_thread_join t) = starter t.
Proof.
  unfold uv_thread_join, worker_exit, capture_dead_letters. simpl.
  now destruct (Queue_dequeue_all (in_ t)) as [[batch|] q].
Qed.

Lemma uv_thread_join_in_error t :
  queue_error (in_ (uv_thread_join t)) = queue_error (in_ t).
Proof.
  unfold uv_thread_join, worker_exit, capture_dead_letters, Queue_dequeue_all. simpl.
  now destruct (items (in_ t)).
Qed.

(** Every ack the loop buffers is an Ack message. *)
Lemma classify_acks_are_acks ms : forall acks should_run t acks' should_run' t',
  Forall (fun a => as_command a = None) acks ->
  classify ms acks should_run t = (Ok (acks', should_run'), t') ->
  Forall (fun a => as_command a = None) acks'.
Proof.
  induction ms as [|it rest IH]; intros acks should_run t acks' should_run' t' Ha H;
    simpl in H.
  - now injection H as <- _ _.
  - assert (Hstep : forall a sr t0, as_command a = None ->
              classify rest (acks ++ [a]) sr t0 = (Ok (acks', should_run'), t') ->
              Forall (fun a => as_command a = None) acks').
    { intros a sr t0 Hn H0. eapply IH; [|exact H0].
      apply Forall_app. split; [assumption|]. now constructor. }
    destruct (as_command it) as [command|]; [|now apply Hstep in H].
    destruct (handle_offline_command command (starter t)) as [r0 st].
    destruct r0 as [v|e]; [|now apply Hstep in H].
    destruct (v =? OFFLINE_ACK); [now apply Hstep in H|].
    destruct (v =? TRIGGER_RUN); [|now apply Hstep in H].
    destruct (in_enqueue it (set_starter st t)) as [[u|e] t1]; [|discriminate].
    eapply IH; eassumption.
Qed.

(** X5. Whatever the batch, the health of the thread and the state of its
    queues, [emit_all] leaves [in], the lifecycle state, the starter, the dead
    letter office and the stored health error exactly as they were: it can
    only append to [out] and trigger the wake signal. *)
Theorem emit_all_touches_only_out ms t :
  in_ (snd (emit_all ms t)) = in_ t /\
  state (snd (emit_all ms t)) = state t /\
  starter (snd (emit_all ms t)) = starter t /\
  dead_letter_office (snd (emit_all ms t)) = dead_letter_office t /\
  health (snd (emit_all ms t)) = health t /\
  queue_error (out (snd (emit_all ms t))) = queue_error (out t) /\
  exists more, items (out (snd (emit_all ms t))) = items (out t) ++ more.
Proof.
  unfold emit_all. destruct (negb (is_healthy t)).
  - simpl. repeat split. exists []. now rewrite app_nil_r.
  - unfold out_enqueue_all, Queue_enqueue_all.
    destruct (queue_error (out t)) as [e|] eqn:Hq; simpl.
    + repeat split; trivial. exists []. now rewrite app_nil_r.
    + destruct (negb (uv_async_send (trace t ++ [EvEnqueueAll QOut ms]) =? 0)); simpl;
        repeat split; trivial; now exists ms.
Qed.

(** ** What the returned boolean tells *)

Lemma send_all_stopped_boolean ms t (b : bool) :
  fst (send_all_stopped ms t) = Ok b ->
  exists acks,
    items (out (snd (send_all_stopped ms t))) = items (out t) ++ acks /\
    b = nonempty acks /\
    Forall (fun a => as_command a = None) acks.
Proof.
  unfold send_all_stopped.
  pose proof (classify_out ms [] false t) as Ho.
  pose proof (classify_acks_are_acks ms [] false t) as Ha.
  destruct (classify ms [] false t) as [[[acks should_run]|e] t1]; simpl in Ho;
    [|discriminate].
  specialize (Ha acks should_run t1 (Forall_nil _) eq_refl).
  assert (Hne : negb match acks with [] => true | _ :: _ => false end = nonempty acks)
    by now destruct acks.
  rewrite Hne. destruct (nonempty acks) eqn:Hn.
  - unfold out_enqueue_all, Queue_enqueue_all.
    destruct (queue_error (out t1)) as [e|] eqn:Hq; simpl; [discriminate|].
    destruct should_run.
    + match goal with |- context [run ?x] =>
        pose proof (run_queues x) as [_ Hr]; destruct (run x) as [rr t3] end.
      simpl in Hr. simpl. intro H. exists acks. rewrite Hr. simpl. rewrite Ho.
      repeat split; trivial. destruct rr; simpl in H; congruence.
    + simpl. intro H. exists acks. rewrite Ho.
      repeat split; trivial. unfold ok_result in H. congruence.
  - destruct acks; [|discriminate]. destruct should_run.
    + pose proof (run_queues t1) as [_ Hr]. destruct (run t1) as [rr t3].
      simpl in *. intro H. exists []. rewrite app_nil_r, Hr, Ho. simpl.
      repeat split; trivial. destruct rr; simpl in H; congruence.
    + simpl. intro H. exists []. rewrite app_nil_r, Ho. simpl.
      repeat split; trivial. unfold ok_result in H. congruence.
Qed.

Lemma send_all_enqueue_boolean ms t (b : bool) :
  fst (send_all_enqueue ms t) = Ok b ->
  out (snd (send_all_enqueue ms t)) = out t /\ b = false.
Proof.
  unfold send_all_enqueue, in_enqueue_all.
  destruct (Queue_enqueue_all ms (in_ t)) as [[u|e] q]; simpl; [|discriminate].
  destruct (is_running _); simpl.
  - destruct (wake _); simpl; [|discriminate]. intro H. split; congruence.
  - intro H. unfold ok_result in H. split; congruence.
Qed.

Lemma send_all_dispatch_boolean ms t (b : bool) :
  fst (send_all_dispatch ms t) = Ok b ->
  exists acks,
    items (out (snd (send_all_dispatch ms t))) = items (out t) ++ acks /\
    b = nonempty acks /\
    Forall (fun a => as_command a = None) acks.
Proof.
  unfold send_all_dispatch. destruct (is_stopped t).
  - apply send_all_stopped_boolean.
  - intro H. apply send_all_enqueue_boolean in H. destruct H as [-> ->].
    exists []. rewrite app_nil_r. repeat split. constructor.
Qed.

(** X6. Whenever [send_all] returns an ok result, in any state of the thread,
    its boolean says exactly whether the call put acks on [out]: what [out]
    holds afterwards is what it held before followed by the acks of this
    call, the boolean is true if and only if there is at least one, and each
    of them is an Ack message.  A caller that reads true will find something
    to receive; one that reads false missed nothing. *)
Theorem send_all_boolean_tells_whether_out_grew ms t (b : bool) :
  fst (send_all ms t) = Ok b ->
  exists acks,
    items (out (snd (send_all ms t))) = items (out t) ++ acks /\
    b = nonempty acks /\
    Forall (fun a => as_command a = None) acks.
Proof.
  rewrite send_all_unfold. unfold send_all_body.
  destruct (negb (is_healthy t)) eqn:Hh; [discriminate|].
  apply negb_false_iff in Hh.
  destruct (is_stopping t); [|apply send_all_dispatch_boolean].
  destruct (dead_letter_office (uv_thread_join t)) as [dl|].
  - rewrite send_all_on_stopped;
      [|now rewrite is_healthy_after_join|reflexivity].
    intro H. apply send_all_stopped_boolean in H.
    destruct H as (acks & Ho & Hb & Ha). exists acks.
    rewrite Ho. change (out (set_dead_letter_office None (uv_thread_join t)))
      with (out (uv_thread_join t)). now rewrite uv_thread_join_out.
  - intro H. apply send_all_dispatch_boolean in H.
    destruct H as (acks & Ho & Hb & Ha). exists acks.
    rewrite Ho. now rewrite uv_thread_join_out.
Qed.

(** ** Where a call leaves the lifecycle state *)

Lemma run_state t : is_healthy t = true -> state (snd (run t)) = STARTING.
Proof.
  intro Hh. unfold run. rewrite Hh. simpl negb. cbv iota.
  destruct (uv_thread_create (trace (mark_starting t)) =? 0); simpl; [reflexivity|].
  unfold report_error.
  destruct (health (record_event EvSpawn (mark_starting t))); reflexivity.
Qed.

Lemma send_all_stopped_state ms t :
  state t = STOPPED ->
  state (snd (send_all_stopped ms t)) = STOPPED \/
  state (snd (send_all_stopped ms t)) = STARTING.
Proof.
  intro Hs. unfold send_all_stopped.
  pose proof (quiet_classify ms [] false t) as Hc.
  destruct (classify ms [] false t) as [[[acks should_run]|e] t1]; simpl in Hc;
    [|simpl; left; destruct Hc as [Hc _]; congruence].
  set (some_acks := negb match acks with [] => true | _ => false end).
  assert (Ho : quiet t1 (snd (if some_acks then out_enqueue_all acks t1 else (Ok tt, t1)))).
  { destruct some_acks; [apply quiet_out_enqueue_all|apply quiet_refl]. }
  destruct (if some_acks then out_enqueue_all acks t1 else (Ok tt, t1)) as [r2 t2].
  simpl in Ho. pose proof (quiet_trans _ _ _ Hc Ho) as [Hq _].
  destruct r2; simpl; [|left; congruence].
  destruct should_run; simpl; [|left; congruence].
  destruct (is_healthy t2) eqn:Hh.
  - pose proof (run_state t2 Hh) as Hr. destruct (run t2). now right.
  - unfold run. rewrite Hh. simpl. left. congruence.
Qed.

Lemma send_all_enqueue_state ms t :
  state (snd (send_all_enqueue ms t)) = state t.
Proof. apply (quiet_send_all_enqueue ms t). Qed.

(** X7. A [send_all] on a healthy thread never leaves it STOPPING and never
    moves a RUNNING or STARTING thread: from RUNNING or STARTING the state is
    unchanged, from STOPPED or STOPPING the thread ends STOPPED or, when the
    batch started it, STARTING; and after a call that observed STOPPING the
    dead letter office is empty. *)
Theorem send_all_never_leaves_the_thread_stopping ms t :
  is_healthy t = true ->
  state (snd (send_all ms t)) <> STOPPING /\
  (state t = RUNNING \/ state t = STARTING -> state (snd (send_all ms t)) = state t) /\
  (state t = STOPPED \/ state t = STOPPING ->
     state (snd (send_all ms t)) = STOPPED \/ state (snd (send_all ms t)) = STARTING) /\
  (state t = STOPPING -> dead_letter_office (snd (send_all ms t)) = None).
Proof.
  intro Hh.
  assert (Hrs : state t = RUNNING \/ state t = STARTING ->
                state (snd (send_all ms t)) = state t).
  { intro Hs. rewrite send_all_not_stopping;
      [|exact Hh|unfold is_stopping; destruct Hs as [-> | ->]; reflexivity].
    unfold send_all_dispatch, is_stopped.
    replace (State_eqb (state t) STOPPED) with false
      by (destruct Hs as [-> | ->]; reflexivity).
    apply send_all_enqueue_state. }
  assert (Hst : state t = STOPPED \/ state t = STOPPING ->
                state (snd (send_all ms t)) = STOPPED \/
                state (snd (send_all ms t)) = STARTING).
  { intros [Hs|Hs].
    - rewrite send_all_on_stopped by assumption. now apply send_all_stopped_state.
    - rewrite send_all_unfold. unfold send_all_body. rewrite Hh.
      apply is_stopping_true in Hs. rewrite Hs. simpl negb. cbv iota.
      destruct (dead_letter_office (uv_thread_join t)) as [dl|].
      + rewrite send_all_on_stopped;
          [|now rewrite is_healthy_after_join|reflexivity].
        now apply send_all_stopped_state.
      + unfold send_all_dispatch, is_stopped. rewrite uv_thread_join_state.
        simpl. now apply send_all_stopped_state. }
  split; [|split; [exact Hrs|split; [exact Hst|]]].
  - destruct (state t) eqn:Hs.
    + destruct Hst as [H|H]; [now left| |]; rewrite H; discriminate.
    + rewrite Hrs by now right. discriminate.
    + rewrite Hrs by now left. discriminate.
    + destruct Hst as [H|H]; [now right| |]; rewrite H; discriminate.
  - intro Hs. rewrite send_all_unfold. unfold send_all_body. rewrite Hh.
    apply is_stopping_true in Hs. rewrite Hs. simpl negb. cbv iota.
    destruct (dead_letter_office (uv_thread_join t)) as [dl|] eqn:Hd.
    + rewrite send_all_on_stopped;
        [|now rewrite is_healthy_after_join|reflexivity].
      now rewrite send_all_stopped_dead_letter_office.
    + unfold send_all_dispatch, is_stopped. rewrite uv_thread_join_state. simpl.
      now rewrite send_all_stopped_dead_letter_office.
Qed.

(** ** STOPPED batches and failing queues *)

Lemma set_starter_same t : set_starter (starter t) t = t.
Proof. now destruct t. Qed.

(** A batch in which nothing triggers is classified without a look at [in]. *)
Lemma classify_no_trigger ms : forall acks should_run t,
  triggered_of (fst (verdicts ms (starter t))) = [] ->
  classify ms acks should_run t =
    (Ok (acks ++ acks_of (fst (verdicts ms (starter t))), should_run),
     set_starter (snd (verdicts ms (starter t))) t).
Proof.
  induction ms as [|it rest IH]; intros acks should_run t.
  - simpl. intros _. now rewrite app_nil_r, set_starter_same.
  - rewrite verdicts_cons. simpl classify. unfold verdict.
    assert (Hack : forall a st,
      triggered_of (fst (verdicts rest st)) = [] ->
      classify rest (acks ++ [a]) should_run (set_starter st t) =
      (Ok (acks ++ acks_of ((it, Acked a) :: fst (verdicts rest st)), should_run),
       set_starter (snd (verdicts rest st)) t)).
    { intros a st Hn. rewrite (IH _ _ (set_starter st t)) by exact Hn.
      simpl. now rewrite <- app_assoc. }
    destruct (as_command it) as [command|].
    + destruct (handle_offline_command command (starter t)) as [r0 st].
      destruct r0 as [v|e]; [|simpl; apply Hack].
      destruct (v =? OFFLINE_ACK); [simpl; apply Hack|].
      destruct (v =? TRIGGER_RUN); [simpl; discriminate|simpl; apply Hack].
    + simpl. intro Hn.
      specialize (Hack (ack it false ("Non-command message " +++ show_message it +++ " sent"))
                       (starter t) Hn).
      now rewrite set_starter_same in Hack.
Qed.

(** With a failed [in], the loop stops at the first message that triggers. *)
Lemma classify_failed_in ms : forall acks should_run t e first others,
  queue_error (in_ t) = Some e ->
  triggered_of (fst (verdicts ms (starter t))) = first :: others ->
  fst (classify ms acks should_run t) = Error e /\
  trace (snd (classify ms acks should_run t)) = trace t ++ [EvEnqueue QIn first] /\
  in_ (snd (classify ms acks should_run t)) = in_ t.
Proof.
  induction ms as [|it rest IH]; intros acks should_run t e first others Hq.
  - simpl. discriminate.
  - rewrite verdicts_cons. simpl classify. unfold verdict.
    assert (Hack : forall a st,
      triggered_of (fst (verdicts rest st)) = first :: others ->
      fst (classify rest (acks ++ [a]) should_run (set_starter st t)) = Error e /\
      trace (snd (classify rest (acks ++ [a]) should_run (set_starter st t)))
        = trace t ++ [EvEnqueue QIn first] /\
      in_ (snd (classify rest (acks ++ [a]) should_run (set_starter st t))) = in_ t).
    { intros a st Hn. apply (IH _ _ (set_starter st t) e first others Hq Hn). }
    destruct (as_command it) as [command|].
    + destruct (handle_offline_command command (starter t)) as [r0 st].
      destruct r0 as [v|e0]; [|simpl; apply Hack].
      destruct (v =? OFFLINE_ACK); [simpl; apply Hack|].
      destruct (v =? TRIGGER_RUN); [|simpl; apply Hack].
      simpl. intro H. injection H as <- _.
      unfold in_enqueue, Queue_enqueue, Queue_enqueue_all. simpl in_.
      rewrite Hq. simpl. destruct t as [h s st0 [its qe] o d tr]. simpl in *.
      subst qe. auto.
    + simpl. intro Hn.
      specialize (Hack (ack it false ("Non-command message " +++ show_message it +++ " sent"))
                       (starter t) Hn).
      now rewrite set_starter_same in Hack.
Qed.

(** X8. On a healthy STOPPED thread whose [in] queue has failed, a batch in
    which some message answers TRIGGER_RUN fails at the first such message:
    [send_all] returns the queue's error after that one enqueue attempt,
    nothing reaches [out] (the acks buffered for the messages before it are
    dropped), [in] is as it was, and the thread is still STOPPED. *)
Theorem stopped_batch_stops_at_the_first_failed_enqueue
    ms t (e : string) (first : Message) (others : list Message) :
  is_healthy t = true ->
  state t = STOPPED ->
  queue_error (in_ t) = Some e ->
  triggered_of (fst (verdicts ms (starter t))) = first :: others ->
  fst (send_all ms t) = Error e /\
  trace (snd (send_all ms t)) = trace t ++ [EvEnqueue QIn first] /\
  out (snd (send_all ms t)) = out t /\
  in_ (snd (send_all ms t)) = in_ t /\
  state (snd (send_all ms t)) = STOPPED /\
  health (snd (send_all ms t)) = health t.
Proof.
  intros Hh Hs Hq Ht. rewrite send_all_on_stopped by assumption.
  unfold send_all_stopped.
  destruct (classify_failed_in ms [] false t e first others Hq Ht) as (Hr & Htr & Hin).
  pose proof (classify_out ms [] false t) as Ho.
  pose proof (quiet_classify ms [] false t) as (Hst & Hhe & _).
  destruct (classify ms [] false t) as [[p|e'] t1]; simpl in *; [discriminate|].
  injection Hr as ->. repeat split; trivial. congruence.
Qed.

(** X9. A batch in which no message answers TRIGGER_RUN never touches [in] and
    never starts the thread: on a healthy STOPPED thread whose [out] accepts
    the acks, [send_all] returns ok whatever the condition of [in], with true
    exactly when the batch is not empty; every message gets its ack on [out]
    in batch order, in one batch, and the thread stays STOPPED. *)
Theorem stopped_batch_without_trigger_needs_no_in ms t :
  is_healthy t = true ->
  state t = STOPPED ->
  queue_error (out t) = None ->
  triggered_of (fst (verdicts ms (starter t))) = [] ->
  let acks := acks_of (fst (verdicts ms (starter t))) in
  fst (send_all ms t) = Ok (nonempty ms) /\
  in_ (snd (send_all ms t)) = in_ t /\
  items (out (snd (send_all ms t))) = items (out t) ++ acks /\
  map answered acks = map Some ms /\
  state (snd (send_all ms t)) = STOPPED /\
  trace (snd (send_all ms t)) =
    trace t ++ (if nonempty ms then [EvEnqueueAll QOut acks] else []).
Proof.
  intros Hh Hs Ho Hn acks.
  assert (Hcov : map answered acks = map Some ms /\ nonempty acks = nonempty ms).
  { unfold acks. clear Hh Hs Ho. revert Hn. generalize (starter t). clear t acks.
    induction ms as [|it rest IH]; intros st Hn; [now split|].
    rewrite verdicts_cons in *. cbn [fst] in *.
    destruct (verdict it st) as [v st1] eqn:Hv. cbn [fst snd] in *.
    destruct v as [a|]; [|discriminate]. simpl in Hn.
    destruct (IH st1 Hn) as [IH1 _]. simpl. rewrite IH1. split; [|reflexivity].
    f_equal. unfold verdict in Hv.
    destruct (as_command it); [|now injection Hv as <- _].
    destruct (handle_offline_command c st) as [[o|e] st'];
      [|now injection Hv as <- _].
    destruct (o =? OFFLINE_ACK); [now injection Hv as <- _|].
    destruct (o =? TRIGGER_RUN); [discriminate|now injection Hv as <- _]. }
  destruct Hcov as [Hans Hne].
  rewrite send_all_on_stopped by assumption. unfold send_all_stopped.
  rewrite classify_no_trigger by exact Hn. fold acks. simpl app.
  assert (Hb : negb match acks with [] => true | _ :: _ => false end = nonempty acks)
    by now destruct acks.
  rewrite Hb, <- Hne. destruct (nonempty acks).
  - unfold out_enqueue_all, Queue_enqueue_all. simpl out. rewrite Ho. simpl.
    repeat split; trivial.
  - simpl. rewrite app_nil_r. repeat split; trivial.
    destruct acks; [now rewrite app_nil_r|discriminate].
Qed.

(** X10. On a healthy STOPPED thread whose [in] accepts the triggered messages
    and whose [out] queue has failed, a batch that produced at least one ack
    ends with the queue's error: the acks are not delivered, [run()] is not
    called, and the messages that answered TRIGGER_RUN stay behind on the
    [in] queue of a thread that is still STOPPED. *)
Theorem stopped_batch_with_failed_out_strands_triggered_messages
    ms t (e : string) :
  is_healthy t = true ->
  state t = STOPPED ->
  queue_error (in_ t) = None ->
  queue_error (out t) = Some e ->
  nonempty (acks_of (fst (verdicts ms (starter t)))) = true ->
  let vs := fst (verdicts ms (starter t)) in
  fst (send_all ms t) = Error e /\
  items (in_ (snd (send_all ms t))) = items (in_ t) ++ triggered_of vs /\
  out (snd (send_all ms t)) = out t /\
  state (snd (send_all ms t)) = STOPPED /\
  trace (snd (send_all ms t)) =
    trace t ++ map (EvEnqueue QIn) (triggered_of vs) ++ [EvEnqueueAll QOut (acks_of vs)].
Proof.
  intros Hh Hs Hi Ho Hn vs.
  rewrite send_all_on_stopped by assumption. unfold send_all_stopped.
  rewrite classify_healthy by exact Hi. fold vs. simpl app.
  assert (Hb : negb match acks_of vs with [] => true | _ :: _ => false end
               = nonempty (acks_of vs)) by now destruct (acks_of vs).
  rewrite Hb. fold vs in Hn. rewrite Hn.
  unfold out_enqueue_all, Queue_enqueue_all. simpl out. rewrite Ho. simpl.
  rewrite <- app_assoc. repeat split; trivial.
Qed.

(** ** Messages that never reach the worker *)

Lemma classify_non_commands ms : forall acks should_run t,
  Forall (fun it => as_command it = None) ms ->
  classify ms acks should_run t =
    (Ok (acks ++ map non_command_ack ms, should_run), t).
Proof.
  induction ms as [|it rest IH]; intros acks should_run t H; simpl.
  - now rewrite app_nil_r.
  - inversion H as [|x l Hit Hrest]; subst. rewrite Hit.
    rewrite IH by assumption. now rewrite <- app_assoc.
Qed.

(** X11. Sent to a healthy STOPPED thread whose [out] accepts the acks, a
    batch of messages that are not commands is answered by one failure ack
    per message, in batch order and in one batch, each naming its message;
    the offline handler is not consulted (the starter is untouched), nothing
    is put on [in], the state is unchanged, and the call returns true unless
    the batch is empty. *)
Theorem non_commands_are_refused_offline ms t :
  Forall (fun it => as_command it = None) ms ->
  is_healthy t = true ->
  state t = STOPPED ->
  queue_error (out t) = None ->
  send_all ms t =
    (Ok (nonempty ms),
     if nonempty ms
     then record_event (EvEnqueueAll QOut (map non_command_ack ms))
            (set_out {| items := items (out t) ++ map non_command_ack ms;
                        queue_error := None |} t)
     else t).
Proof.
  intros Hn Hh Hs Ho. rewrite send_all_on_stopped by assumption.
  unfold send_all_stopped. rewrite classify_non_commands by exact Hn. simpl app.
  destruct ms as [|it rest]; [reflexivity|]. simpl.
  unfold out_enqueue_all, Queue_enqueue_all. now rewrite Ho.
Qed.

(** X12. An error of the offline handler is a matter of that one command: the
    loop buffers a failure ack carrying the handler's own error text and goes
    on with the rest of the batch, and the ack is still there when the loop
    ends; sent alone to a healthy STOPPED thread whose [out] accepts the ack,
    such a command makes [send_all] return ok and true, not the handler's
    error, and the thread stays STOPPED and healthy. *)
Theorem offline_handler_error_is_acked_not_returned
    (it : Message) (command : CommandPayload) (rest : list Message)
    acks (should_run : bool) t (e : string) (st : ThreadStarter) :
  as_command it = Some command ->
  handle_offline_command command (starter t) = (Error e, st) ->
  classify (it :: rest) acks should_run t =
    classify rest (acks ++ [Ack it false e]) should_run (set_starter st t) /\
  (forall acks' should_run' t',
     classify (it :: rest) acks should_run t = (Ok (acks', should_run'), t') ->
     In (Ack it false e) acks') /\
  (is_healthy t = true -> state t = STOPPED -> queue_error (out t) = None ->
   fst (send_all [it] t) = Ok true /\
   items (out (snd (send_all [it] t))) = items (out t) ++ [Ack it false e] /\
   state (snd (send_all [it] t)) = STOPPED /\
   health (snd (send_all [it] t)) = health t).
Proof.
  intros Hc Hr.
  assert (E : classify (it :: rest) acks should_run t =
              classify rest (acks ++ [Ack it false e]) should_run (set_starter st t)).
  { simpl. now rewrite Hc, Hr. }
  split; [exact E|]. split.
  - intros acks' should_run' t' H. rewrite E in H.
    apply classify_keeps_acks in H. destruct H as [more ->].
    rewrite <- app_assoc. apply in_or_app. right. now left.
  - intros Hh Hs Ho. rewrite send_all_on_stopped by assumption.
    unfold send_all_stopped. simpl classify. rewrite Hc, Hr. simpl.
    unfold out_enqueue_all, Queue_enqueue_all. simpl. rewrite Ho. simpl. auto.
Qed.

(** ** Order of a replay *)

Lemma verdicts_app (a b : list Message) : forall st : ThreadStarter,
  fst (verdicts (a ++ b) st) =
    fst (verdicts a st) ++ fst (verdicts b (snd (verdicts a st))) /\
  snd (verdicts (a ++ b) st) = snd (verdicts b (snd (verdicts a st))).
Proof.
  induction a as [|it rest IH]; intro st; [now split|].
  rewrite <- app_comm_cons, !verdicts_cons. cbn [fst snd].
  destruct (IH (snd (verdict it st))) as [-> ->]. now split.
Qed.

Lemma acks_of_app (u v : list (Message * Verdict)) :
  acks_of (u ++ v) = acks_of u ++ acks_of v.
Proof.
  induction u as [|[it [a|]] u IH]; simpl; now rewrite ?IH.
Qed.

Lemma triggered_of_app (u v : list (Message * Verdict)) :
  triggered_of (u ++ v) = triggered_of u ++ triggered_of v.
Proof.
  induction u as [|[it [a|]] u IH]; simpl; now rewrite ?IH.
Qed.

(** X13. In a replay the dead letters go first.  When a [send_all] on a
    healthy STOPPING thread finds dead letters after the join and the queues
    accept what is enqueued, the acks of the dead letters are put on [out]
    before the acks of the new messages, the dead letters that answer
    TRIGGER_RUN are put on [in] before the new messages that do, and the new
    messages are classified with the starter as the dead letters left it. *)
Theorem replay_answers_dead_letters_first ms (dl : list Message) t :
  is_healthy t = true ->
  state t = STOPPING ->
  dead_letter_office (uv_thread_join t) = Some dl ->
  queue_error (in_ t) = None ->
  queue_error (out t) = None ->
  let old := verdicts dl (starter t) in
  let new := verdicts ms (snd old) in
  items (out (snd (send_all ms t))) =
    items (out t) ++ acks_of (fst old) ++ acks_of (fst new) /\
  items (in_ (snd (send_all ms t))) =
    items (in_ (uv_thread_join t)) ++ triggered_of (fst old) ++ triggered_of (fst new) /\
  (forall b : bool, fst (send_all ms t) = Ok b ->
     b = nonempty (acks_of (fst old) ++ acks_of (fst new))).
Proof.
  intros Hh Hs Hd Hi Ho old new.
  set (joined := set_dead_letter_office None (uv_thread_join t)).
  assert (E : send_all ms t = send_all_stopped (dl ++ ms) joined).
  { rewrite send_all_unfold. unfold send_all_body.
    apply is_stopping_true in Hs. rewrite Hh, Hs. simpl negb. cbv iota.
    rewrite Hd. apply send_all_on_stopped; [|reflexivity].
    unfold joined. now rewrite is_healthy_after_join. }
  assert (Hji : queue_error (in_ joined) = None)
    by (change (in_ joined) with (in_ (uv_thread_join t));
        now rewrite uv_thread_join_in_error).
  assert (Hjo : queue_error (out joined) = None)
    by (change (out joined) with (out (uv_thread_join t));
        now rewrite uv_thread_join_out).
  rewrite E, (send_all_stopped_healthy_queues (dl ++ ms) joined Hji Hjo).
  assert (Hst : starter joined = starter t)
    by (change (starter joined) with (starter (uv_thread_join t));
        apply uv_thread_join_starter).
  rewrite Hst. destruct (verdicts_app dl ms (starter t)) as [Hv1 Hv2].
  rewrite Hv1, Hv2. fold old. fold new.
  rewrite acks_of_app, triggered_of_app.
  set (classified := after_classification (fst old ++ fst new) (snd new) joined).
  assert (Hin : items (in_ classified) =
                items (in_ (uv_thread_join t)) ++ triggered_of (fst old ++ fst new))
    by reflexivity.
  assert (Hout : items (out classified) =
                 items (out t) ++ acks_of (fst old ++ fst new)).
  { unfold classified, after_classification. cbn [out].
    change (out joined) with (out (uv_thread_join t)). rewrite uv_thread_join_out.
    destruct (acks_of (fst old ++ fst new)); simpl; [now rewrite app_nil_r|reflexivity]. }
  rewrite acks_of_app in Hout. rewrite triggered_of_app in Hin.
  destruct (nonempty (triggered_of (fst old) ++ triggered_of (fst new))); simpl fst; simpl snd.
  - destruct (run_queues classified) as [-> ->]. repeat split; trivial.
    intros b Hb. destruct (fst (run classified)); simpl in Hb; congruence.
  - repeat split; trivial. intros b Hb. congruence.
Qed.

(** ** One batch or one message at a time *)

Lemma count_app (p : Event -> bool) evs1 evs2 :
  count p (evs1 ++ evs2) = (count p evs1 + count p evs2)%nat.
Proof.
  unfold count. induction evs1 as [|e evs1 IH]; simpl; [reflexivity|].
  destruct (p e); simpl; now rewrite IH.
Qed.

Lemma emit_all_accepting ms t :
  is_healthy t = true ->
  queue_error (out t) = None ->
  snd (emit_all ms t) =
    record_event EvAsyncSend
      (record_event (EvEnqueueAll QOut ms)
         (set_out {| items := items (out t) ++ ms; queue_error := None |} t)).
Proof.
  intros Hh Ho. unfold emit_all, out_enqueue_all, Queue_enqueue_all.
  rewrite Hh, Ho. simpl negb. cbv iota.
  now destruct (negb (uv_async_send _ =? 0)).
Qed.

Lemma emit_each_accepting ms : forall t,
  is_healthy t = true ->
  queue_error (out t) = None ->
  items (out (emit_each ms t)) = items (out t) ++ ms /\
  count is_async_send (trace (emit_each ms t))
    = (count is_async_send (trace t) + List.length ms)%nat /\
  count is_out_batch (trace (emit_each ms t))
    = (count is_out_batch (trace t) + List.length ms)%nat.
Proof.
  induction ms as [|m rest IH]; intros t Hh Ho; simpl.
  - rewrite app_nil_r. repeat split; lia.
  - rewrite emit_all_accepting by assumption.
    match goal with |- context [emit_each rest ?x] =>
      destruct (IH x Hh eq_refl) as (H1 & H2 & H3) end.
    rewrite H1, H2, H3. simpl. rewrite <- !app_assoc, !count_app. simpl.
    repeat split; unfold count; simpl; lia.
Qed.

(** X14. Emitting a batch with one [emit_all] leaves on [out] exactly what
    emitting its messages one at a time would, in the same order, whatever
    the wake signal answers; the difference is the number of calls: one
    enqueue and one wake trigger for the batch, against one of each per
    message. *)
Theorem emit_all_batches_what_emit_each_repeats ms t :
  is_healthy t = true ->
  queue_error (out t) = None ->
  items (out (snd (emit_all ms t))) = items (out (emit_each ms t)) /\
  count is_async_send (trace (snd (emit_all ms t)))
    = (count is_async_send (trace t) + 1)%nat /\
  count is_async_send (trace (emit_each ms t))
    = (count is_async_send (trace t) + List.length ms)%nat /\
  count is_out_batch (trace (snd (emit_all ms t)))
    = (count is_out_batch (trace t) + 1)%nat /\
  count is_out_batch (trace (emit_each ms t))
    = (count is_out_batch (trace t) + List.length ms)%nat.
Proof.
  intros Hh Ho. destruct (emit_each_accepting ms t Hh Ho) as (H1 & H2 & H3).
  rewrite emit_all_accepting by assumption. rewrite H1. simpl.
  rewrite <- !app_assoc, !count_app. repeat split; trivial.
Qed.

Lemma send_all_running_accepting ms t :
  is_healthy t = true ->
  state t = RUNNING ->
  queue_error (in_ t) = None ->
  snd (send_all ms t) =
    record_event EvWake
      (record_event (EvEnqueueAll QIn ms)
         (set_in {| items := items (in_ t) ++ ms; queue_error := None |} t)).
Proof.
  intros Hh Hs Hq.
  rewrite send_all_not_stopping;
    [|exact Hh|unfold is_stopping; now rewrite Hs].
  unfold send_all_dispatch, is_stopped. rewrite Hs. simpl State_eqb. cbv iota.
  unfold send_all_enqueue, in_enqueue_all, Queue_enqueue_all. rewrite Hq.
  unfold is_running. simpl. now rewrite Hs.
Qed.

Lemma send_each_running ms : forall t,
  is_healthy t = true ->
  state t = RUNNING ->
  queue_error (in_ t) = None ->
  items (in_ (send_each ms t)) = items (in_ t) ++ ms /\
  count is_wake (trace (send_each ms t))
    = (count is_wake (trace t) + List.length ms)%nat.
Proof.
  induction ms as [|m rest IH]; intros t Hh Hs Hq; simpl.
  - rewrite app_nil_r. split; [reflexivity|lia].
  - rewrite send_all_running_accepting by assumption.
    match goal with |- context [send_each rest ?x] =>
      destruct (IH x Hh Hs eq_refl) as (H1 & H2) end.
    rewrite H1, H2. simpl. rewrite <- !app_assoc, !count_app. simpl.
    split; [reflexivity|unfold count; simpl; lia].
Qed.

(** X15. Sending a batch to a healthy RUNNING thread with one [send_all]
    leaves on [in] exactly what sending its messages one at a time would, in
    the same order, whatever [wake()] answers; the batch costs one wake hint,
    the loop one per message. *)
Theorem send_all_batches_what_send_each_repeats ms t :
  is_healthy t = true ->
  state t = RUNNING ->
  queue_error (in_ t) = None ->
  items (in_ (snd (send_all ms t))) = items (in_ (send_each ms t)) /\
  count is_wake (trace (snd (send_all ms t))) = (count is_wake (trace t) + 1)%nat /\
  count is_wake (trace (send_each ms t))
    = (count is_wake (trace t) + List.length ms)%nat.
Proof.
  intros Hh Hs Hq. destruct (send_each_running ms t Hh Hs Hq) as (H1 & H2).
  rewrite send_all_running_accepting by assumption. rewrite H1. simpl.
  rewrite <- !app_assoc, !count_app. repeat split; trivial.
Qed.

(** ** The stores do not check the cycle *)

Lemma one_mark_follows t (s : State) :
  follows_cycle t (record_event (EvMark s) (set_state s t)) <->
  s = next_state (state t).
Proof.
  split; [|apply follows_mark].
  intros (evs & Ht & Ho & _). simpl in Ht. apply app_inv_head in Ht. subst evs.
  simpl in Ho. apply Ho.
Qed.

(** X16. The four [mark_*] operations store their state from any state
    whatever: each makes its own predicate true without looking at the
    current state.  A store continues the run cycle exactly when it is made
    in the state that precedes its own, so keeping the order
    STOPPED, STARTING, RUNNING, STOPPING is left to the callers. *)
Theorem mark_operations_do_not_check_the_cycle t :
  (is_stopped (mark_stopped t) = true /\ is_starting (mark_starting t) = true /\
   is_running (mark_running t) = true /\ is_stopping (mark_stopping t) = true) /\
  (follows_cycle t (mark_starting t) <-> state t = STOPPED) /\
  (follows_cycle t (mark_running t) <-> state t = STARTING) /\
  (follows_cycle t (mark_stopping t) <-> state t = RUNNING) /\
  (follows_cycle t (mark_stopped t) <-> state t = STOPPING).
Proof.
  split; [repeat split|].
  unfold mark_starting, mark_running, mark_stopping, mark_stopped.
  rewrite !one_mark_follows.
  repeat split; intro H; destruct (state t); simpl in *; congruence.
Qed.

(** ** The default wake hint *)

(** X17. Under the [wake()] that thread.h itself defines, which only returns
    ok, a [send_all] on a healthy RUNNING thread can fail in one way only:
    it returns false when [in] accepts the batch and the queue's error when
    it does not. *)
Theorem send_all_running_with_default_wake ms t :
  (forall calls, wake calls = Thread_wake calls) ->
  is_healthy t = true ->
  state t = RUNNING ->
  fst (send_all ms t) =
    match queue_error (in_ t) with
    | None => Ok false
    | Some e => Error e
    end.
Proof.
  intros Hw Hh Hs.
  rewrite send_all_not_stopping;
    [|exact Hh|unfold is_stopping; now rewrite Hs].
  unfold send_all_dispatch, is_stopped. rewrite Hs. simpl State_eqb. cbv iota.
  unfold send_all_enqueue, in_enqueue_all, Queue_enqueue_all.
  destruct (queue_error (in_ t)) as [e|]; simpl; [reflexivity|].
  unfold is_running. simpl. rewrite Hs. simpl. now rewrite Hw.
Qed.

(** ** Queue statistics *)

(** X18. Seen through the size accessors, a [send_all] on a healthy thread
    that is STOPPED, STARTING or RUNNING and whose queues accept what is
    enqueued neither loses nor duplicates a message: the sizes of [in] and
    [out] together grow by exactly the size of the batch. *)
Theorem send_all_grows_the_queues_by_the_batch ms t :
  is_healthy t = true ->
  state t <> STOPPING ->
  queue_error (in_ t) = None ->
  queue_error (out t) = None ->
  (get_in_queue_size (snd (send_all ms t)) + get_out_queue_size (snd (send_all ms t))
   = get_in_queue_size t + get_out_queue_size t + List.length ms)%nat.
Proof.
  intros Hh Hs Hi Ho. unfold get_in_queue_size, get_out_queue_size, Queue_size.
  destruct (state t) eqn:Hst; [| | |contradiction].
  - destruct (verdicts_cover ms (starter t)) as (_ & Hlen & _).
    rewrite send_all_on_stopped by assumption.
    rewrite send_all_stopped_healthy_queues by assumption.
    set (vs := fst (verdicts ms (starter t))) in *.
    set (classified := after_classification vs (snd (verdicts ms (starter t))) t).
    assert (Hin : items (in_ classified) = items (in_ t) ++ triggered_of vs) by reflexivity.
    assert (Hout : items (out classified) = items (out t) ++ acks_of vs).
    { unfold classified, after_classification. cbn [out].
      destruct (acks_of vs); simpl; [now rewrite app_nil_r|reflexivity]. }
    assert (Hsum : (List.length (items (in_ classified))
                    + List.length (items (out classified))
                    = List.length (items (in_ t)) + List.length (items (out t))
                      + List.length ms)%nat).
    { rewrite Hin, Hout, !length_app. lia. }
    destruct (nonempty (triggered_of vs)); simpl snd; [|exact Hsum].
    destruct (run_queues classified) as [-> ->]. exact Hsum.
  - rewrite send_all_not_stopping;
      [|exact Hh|unfold is_stopping; now rewrite Hst].
    unfold send_all_dispatch, is_stopped. rewrite Hst. simpl State_eqb. cbv iota.
    unfold send_all_enqueue, in_enqueue_all, Queue_enqueue_all. rewrite Hi.
    unfold is_running. simpl. rewrite Hst. simpl. rewrite length_app. lia.
  - rewrite send_all_running_accepting by assumption. simpl.
    rewrite length_app. lia.
Qed.

(** ** The calls a [send_all] can make *)

Lemma count_enqueues (p : Event -> bool) (l : list Message) :
  (forall m, p (EvEnqueue QIn m) = false) ->
  count p (map (EvEnqueue QIn) l) = 0%nat.
Proof.
  intro Hp. unfold count. induction l as [|m l IH]; simpl; [reflexivity|].
  now rewrite Hp.
Qed.

Lemma classify_trace ms : forall acks should_run t,
  exists l, trace (snd (classify ms acks should_run t))
            = trace t ++ map (EvEnqueue QIn) l.
Proof.
  induction ms as [|it rest IH]; intros acks should_run t; simpl.
  - exists []. simpl. now rewrite app_nil_r.
  - destruct (as_command it) as [command|]; [|apply IH].
    destruct (handle_offline_command command (starter t)) as [[v|e] st];
      [|apply (IH _ _ (set_starter st t))].
    destruct (v =? OFFLINE_ACK); [apply (IH _ _ (set_starter st t))|].
    destruct (v =? TRIGGER_RUN); [|apply (IH _ _ (set_starter st t))].
    unfold in_enqueue. destruct (Queue_enqueue it (in_ (set_starter st t))) as [[u|e] q].
    + match goal with |- context [classify rest acks true ?x] =>
        destruct (IH acks true x) as [l Hl] end.
      exists (it :: l). rewrite Hl. simpl. now rewrite <- app_assoc.
    + exists [it]. reflexivity.
Qed.

(** The calls of a STOPPED batch: enqueues on [in], then at most one batch on
    [out], then at most one [run()]. *)
Lemma send_all_stopped_calls ms t :
  is_healthy t = true ->
  exists (l : list Message) (to_out started : list Event),
    trace (snd (send_all_stopped ms t))
      = trace t ++ map (EvEnqueue QIn) l ++ to_out ++ started /\
    (to_out = [] \/ exists a, to_out = [EvEnqueueAll QOut a]) /\
    (started = [] \/ started = [EvMark STARTING; EvSpawn]) /\
    (started = [] -> health (snd (send_all_stopped ms t)) = health t).
Proof.
  intro Hh. unfold send_all_stopped.
  destruct (classify_trace ms [] false t) as [l Hl].
  pose proof (quiet_classify ms [] false t) as (_ & Hhe & _).
  destruct (classify ms [] false t) as [[[acks should_run]|e] t1]; simpl in Hl, Hhe.
  - set (some_acks := negb match acks with [] => true | _ => false end).
    assert (Ho : exists to_out,
               trace (snd (if some_acks then out_enqueue_all acks t1 else (Ok tt, t1)))
                 = trace t1 ++ to_out /\
               health (snd (if some_acks then out_enqueue_all acks t1 else (Ok tt, t1)))
                 = health t1 /\
               (to_out = [] \/ exists a, to_out = [EvEnqueueAll QOut a])).
    { destruct some_acks.
      - exists [EvEnqueueAll QOut acks]. unfold out_enqueue_all.
        destruct (Queue_enqueue_all acks (out t1)). simpl. eauto.
      - exists []. simpl. rewrite app_nil_r. auto. }
    destruct Ho as (to_out & Hto & Hho & Hshape).
    destruct (if some_acks then out_enqueue_all acks t1 else (Ok tt, t1)) as [r2 t2].
    simpl in Hto, Hho.
    assert (Hstay : trace t2 = trace t ++ map (EvEnqueue QIn) l ++ to_out ++ [])
      by (rewrite Hto, Hl, app_nil_r; now rewrite app_assoc).
    assert (Hh2 : health t2 = health t) by congruence.
    destruct r2 as [u|e]; simpl.
    + destruct should_run; simpl.
      * assert (Hr : is_healthy t2 = true) by (unfold is_healthy in *; now rewrite Hh2).
        pose proof (run_healthy_trace t2 Hr) as Htr. destruct (run t2) as [rr t3].
        simpl in *. exists l, to_out, [EvMark STARTING; EvSpawn].
        rewrite Htr, Hto, Hl. rewrite <- !app_assoc.
        repeat split; auto. discriminate.
      * exists l, to_out, []. repeat split; auto.
    + exists l, to_out, []. repeat split; auto.
  - simpl. exists l, [], []. simpl. rewrite app_nil_r. repeat split; auto.
Qed.

Lemma send_all_stopped_counts ms t :
  is_healthy t = true ->
  exists evs,
    trace (snd (send_all_stopped ms t)) = trace t ++ evs /\
    count is_async_send evs = 0%nat /\
    count is_join evs = 0%nat /\
    count is_wake evs = 0%nat /\
    (count is_spawn evs <= 1)%nat /\
    (count is_spawn evs = 0%nat -> health (snd (send_all_stopped ms t)) = health t).
Proof.
  intro Hh.
  destruct (send_all_stopped_calls ms t Hh) as (l & to_out & started & Ht & Ho & Hs & Hhe).
  exists (map (EvEnqueue QIn) l ++ to_out ++ started). split; [exact Ht|].
  rewrite !count_app, !count_enqueues by reflexivity.
  destruct Ho as [-> | [a ->]]; destruct Hs as [-> | ->]; unfold count; simpl;
    repeat split; try lia; auto; discriminate.
Qed.

(** X19. The calls a [send_all] on a healthy thread can make.  It never
    triggers the coordinator's wake signal ([uv_async_send]); it joins the
    worker once if it observes STOPPING and never otherwise; it hints the
    worker with [wake()] at most once, and only when the thread is RUNNING;
    it reaches [run()] at most once, and never from RUNNING or STARTING; and
    a call that did not reach [run()] leaves the stored health error as it
    was, whatever a queue or [wake()] answered. *)
Theorem send_all_calls_by_state ms t :
  is_healthy t = true ->
  exists evs,
    trace (snd (send_all ms t)) = trace t ++ evs /\
    count is_async_send evs = 0%nat /\
    count is_join evs = (if is_stopping t then 1 else 0)%nat /\
    (count is_wake evs <= if is_running t then 1 else 0)%nat /\
    (count is_spawn evs <= if is_stopped t || is_stopping t then 1 else 0)%nat /\
    (count is_spawn evs = 0%nat -> health (snd (send_all ms t)) = health t).
Proof.
  intro Hh. destruct (state t) eqn:Hs.
  - rewrite send_all_on_stopped by assumption.
    destruct (send_all_stopped_counts ms t Hh) as (evs & Ht & Ha & Hj & Hw & Hsp & Hhe).
    exists evs. unfold is_stopping, is_running, is_stopped. rewrite Hs. simpl.
    repeat split; trivial. lia.
  - rewrite send_all_not_stopping;
      [|exact Hh|unfold is_stopping; now rewrite Hs].
    unfold send_all_dispatch, is_stopped, is_stopping, is_running. rewrite Hs.
    simpl State_eqb. cbv iota.
    unfold send_all_enqueue, in_enqueue_all.
    destruct (Queue_enqueue_all ms (in_ t)) as [[u|e] q]; simpl.
    + unfold is_running. simpl. rewrite Hs. simpl.
      exists [EvEnqueueAll QIn ms]. unfold count. simpl. repeat split; auto.
    + exists [EvEnqueueAll QIn ms]. unfold count. simpl. repeat split; auto.
  - rewrite send_all_not_stopping;
      [|exact Hh|unfold is_stopping; now rewrite Hs].
    unfold send_all_dispatch, is_stopped, is_stopping, is_running. rewrite Hs.
    simpl State_eqb. cbv iota.
    unfold send_all_enqueue, in_enqueue_all.
    destruct (Queue_enqueue_all ms (in_ t)) as [[u|e] q]; simpl.
    + unfold is_running. simpl. rewrite Hs. simpl.
      exists [EvEnqueueAll QIn ms; EvWake]. rewrite <- app_assoc.
      unfold count. simpl. repeat split; auto.
    + exists [EvEnqueueAll QIn ms]. unfold count. simpl. repeat split; auto.
  - rewrite send_all_unfold. unfold send_all_body. rewrite Hh.
    unfold is_stopping, is_running, is_stopped. rewrite Hs. simpl negb.
    simpl State_eqb. cbv iota. simpl orb. cbv iota.
    set (joined := uv_thread_join t).
    assert (Hstop : forall batch t1,
              trace t1 = trace joined -> health t1 = health t -> state t1 = STOPPED ->
              exists evs,
                trace (snd (send_all_stopped batch t1)) = trace t ++ evs /\
                count is_async_send evs = 0%nat /\
                count is_join evs = 1%nat /\
                (count is_wake evs <= 0)%nat /\
                (count is_spawn evs <= 1)%nat /\
                (count is_spawn evs = 0%nat ->
                 health (snd (send_all_stopped batch t1)) = health t)).
    { intros batch t1 Htr Hhe Hst.
      assert (Hh1 : is_healthy t1 = true) by (unfold is_healthy in *; now rewrite Hhe).
      destruct (send_all_stopped_counts batch t1 Hh1)
        as (evs & Ht & Ha & Hj & Hw & Hsp & Hhe').
      exists ([EvJoin; EvMark STOPPED] ++ evs). rewrite Ht, Htr.
      unfold joined. rewrite uv_thread_join_trace, <- app_assoc.
      split; [reflexivity|]. rewrite !count_app, Ha, Hj, Hw.
      change (count is_async_send [EvJoin; EvMark STOPPED]) with 0%nat.
      change (count is_join [EvJoin; EvMark STOPPED]) with 1%nat.
      change (count is_wake [EvJoin; EvMark STOPPED]) with 0%nat.
      change (count is_spawn [EvJoin; EvMark STOPPED]) with 0%nat.
      split; [reflexivity|]. split; [reflexivity|]. split; [lia|].
      split; [exact Hsp|]. intro H0. rewrite Hhe' by exact H0. exact Hhe. }
    destruct (dead_letter_office joined) as [dl|] eqn:Hd.
    + rewrite send_all_on_stopped;
        [|unfold joined; now rewrite is_healthy_after_join|reflexivity].
      apply Hstop; [reflexivity| |reflexivity].
      change (health (set_dead_letter_office None joined)) with (health joined).
      apply uv_thread_join_health.
    + unfold send_all_dispatch, is_stopped. unfold joined at 1.
      rewrite uv_thread_join_state. simpl State_eqb. cbv iota.
      apply Hstop; [reflexivity|apply uv_thread_join_health|reflexivity].
Qed.

(** ** Splitting a batch, and the empty batch *)

Lemma run_starter t : starter (snd (run t)) = starter t.
Proof.
  unfold run. destruct (negb (is_healthy t)); [reflexivity|].
  destruct (uv_thread_create (trace (mark_starting t)) =? 0); simpl; [reflexivity|].
  unfold report_error.
  destruct (health (record_event EvSpawn (mark_starting t))); reflexivity.
Qed.

(** What a STOPPED batch leaves on the queues and in the starter. *)
Lemma send_all_stopped_contents ms t :
  queue_error (in_ t) = None ->
  queue_error (out t) = None ->
  items (in_ (snd (send_all_stopped ms t)))
    = items (in_ t) ++ triggered_of (fst (verdicts ms (starter t))) /\
  items (out (snd (send_all_stopped ms t)))
    = items (out t) ++ acks_of (fst (verdicts ms (starter t))) /\
  starter (snd (send_all_stopped ms t)) = snd (verdicts ms (starter t)).
Proof.
  intros Hi Ho. rewrite send_all_stopped_healthy_queues by assumption.
  set (vs := fst (verdicts ms (starter t))).
  set (classified := after_classification vs (snd (verdicts ms (starter t))) t).
  assert (Hin : items (in_ classified) = items (in_ t) ++ triggered_of vs) by reflexivity.
  assert (Hout : items (out classified) = items (out t) ++ acks_of vs).
  { unfold classified, after_classification. cbn [out].
    destruct (acks_of vs); simpl; [now rewrite app_nil_r|reflexivity]. }
  assert (Hst : starter classified = snd (verdicts ms (starter t))) by reflexivity.
  destruct (nonempty (triggered_of vs)); simpl snd; [|auto].
  destruct (run_queues classified) as [-> ->]. rewrite run_starter. auto.
Qed.

(** X20. A STOPPED batch may be split after messages that do not trigger: if
    no message of the first part answers TRIGGER_RUN, sending the two parts
    in two calls leaves on [out] and on [in] the same messages in the same
    order, and the same starter, as sending them in one call (the queues
    accepting what is enqueued). *)
Theorem stopped_batch_splits_after_messages_that_do_not_trigger
    (first second : list Message) t :
  is_healthy t = true ->
  state t = STOPPED ->
  queue_error (in_ t) = None ->
  queue_error (out t) = None ->
  triggered_of (fst (verdicts first (starter t))) = [] ->
  let twice := snd (send_all second (snd (send_all first t))) in
  let once := snd (send_all (first ++ second) t) in
  items (out twice) = items (out once) /\
  items (in_ twice) = items (in_ once) /\
  starter twice = starter once.
Proof.
  intros Hh Hs Hi Ho Hn twice once.
  assert (E1 : send_all first t =
               (Ok (nonempty (acks_of (fst (verdicts first (starter t))))),
                after_classification (fst (verdicts first (starter t)))
                  (snd (verdicts first (starter t))) t)).
  { rewrite send_all_on_stopped by assumption.
    rewrite send_all_stopped_healthy_queues by assumption. now rewrite Hn. }
  set (t1 := snd (send_all first t)).
  assert (Ht1 : t1 = after_classification (fst (verdicts first (starter t)))
                       (snd (verdicts first (starter t))) t)
    by (unfold t1; now rewrite E1).
  assert (Hh1 : is_healthy t1 = true) by (rewrite Ht1; exact Hh).
  assert (Hs1 : state t1 = STOPPED) by (rewrite Ht1; exact Hs).
  assert (Hi1 : queue_error (in_ t1) = None) by (rewrite Ht1; reflexivity).
  assert (Ho1 : queue_error (out t1) = None).
  { rewrite Ht1. unfold after_classification. cbn [out].
    now destruct (nonempty (acks_of (fst (verdicts first (starter t))))). }
  assert (Hst1 : starter t1 = snd (verdicts first (starter t)))
    by (rewrite Ht1; reflexivity).
  assert (Hin1 : items (in_ t1) = items (in_ t)).
  { rewrite Ht1. unfold after_classification. cbn [in_ items].
    rewrite Hn. apply app_nil_r. }
  assert (Hout1 : items (out t1)
                  = items (out t) ++ acks_of (fst (verdicts first (starter t)))).
  { rewrite Ht1. unfold after_classification. cbn [out].
    destruct (acks_of (fst (verdicts first (starter t)))); simpl;
      [now rewrite app_nil_r|reflexivity]. }
  unfold twice, once. fold t1.
  rewrite (send_all_on_stopped second t1 Hh1 Hs1).
  rewrite (send_all_on_stopped (first ++ second) t Hh Hs).
  destruct (send_all_stopped_contents second t1 Hi1 Ho1) as (A1 & A2 & A3).
  destruct (send_all_stopped_contents (first ++ second) t Hi Ho) as (B1 & B2 & B3).
  destruct (verdicts_app first second (starter t)) as [Hv1 Hv2].
  rewrite A1, A2, A3, B1, B2, B3, Hv1, Hv2, Hst1, Hin1, Hout1.
  rewrite acks_of_app, triggered_of_app, Hn, <- app_assoc. auto.
Qed.

(** ** The empty batch *)

(** X21. Neither operation looks at the size of its batch.  On a healthy
    thread, [send_all] of an empty batch changes nothing and returns false
    when the thread is STOPPED; on a STARTING or RUNNING thread it still calls
    [enqueue_all] on [in], and on a RUNNING thread it goes on to [wake()]
    when that enqueue succeeds; [emit_all] of an empty batch still calls
    [enqueue_all] on [out] and goes on to [uv_async_send] when that enqueue
    succeeds.  When the enqueue fails the call stops there.  In every case
    the content of the queue is unchanged. *)
Theorem empty_batches_still_signal t :
  is_healthy t = true ->
  (state t = STOPPED -> send_all [] t = (Ok false, t)) /\
  (state t = STARTING ->
     items (in_ (snd (send_all [] t))) = items (in_ t) /\
     trace (snd (send_all [] t)) = trace t ++ [EvEnqueueAll QIn []]) /\
  (state t = RUNNING ->
     items (in_ (snd (send_all [] t))) = items (in_ t) /\
     trace (snd (send_all [] t)) =
       trace t ++ EvEnqueueAll QIn []
               :: (match queue_error (in_ t) with None => [EvWake] | Some _ => [] end)) /\
  (items (out (snd (emit_all [] t))) = items (out t) /\
   trace (snd (emit_all [] t)) =
     trace t ++ EvEnqueueAll QOut []
             :: (match queue_error (out t) with None => [EvAsyncSend] | Some _ => [] end)).
Proof.
  intro Hh. split; [|split; [|split]].
  - intro Hs. now rewrite send_all_on_stopped.
  - intros Hs. rewrite send_all_not_stopping;
      [|exact Hh|unfold is_stopping; now rewrite Hs].
    unfold send_all_dispatch, is_stopped. rewrite Hs. simpl State_eqb. cbv iota.
    unfold send_all_enqueue, in_enqueue_all, Queue_enqueue_all.
    destruct (queue_error (in_ t)) as [e|]; simpl; [auto|].
    unfold is_running. simpl. rewrite Hs. simpl. rewrite app_nil_r. auto.
  - intros Hs. rewrite send_all_not_stopping;
      [|exact Hh|unfold is_stopping; now rewrite Hs].
    unfold send_all_dispatch, is_stopped. rewrite Hs. simpl State_eqb. cbv iota.
    unfold send_all_enqueue, in_enqueue_all, Queue_enqueue_all.
    destruct (queue_error (in_ t)) as [e|]; simpl; [auto|].
    unfold is_running. simpl. rewrite Hs. simpl.
    rewrite app_nil_r, <- app_assoc. auto.
  - unfold emit_all, out_enqueue_all, Queue_enqueue_all. rewrite Hh. simpl negb.
    cbv iota. destruct (queue_error (out t)) as [e|]; simpl; [auto|].
    destruct (negb (uv_async_send (trace t ++ [EvEnqueueAll QOut []]) =? 0)); simpl;
      rewrite app_nil_r, <- app_assoc; auto.
Qed.

(** ** An invalid offline outcome *)

Lemma verdict_invalid (it : Message) (command : CommandPayload)
    (st st' : ThreadStarter) (v : OfflineCommandOutcome) :
  as_command it = Some command ->
  handle_offline_command command st = (Ok v, st') ->
  v <> OFFLINE_ACK ->
  v <> TRIGGER_RUN ->
  verdict it st =
    (Acked (ack it false ("Message " +++ show_message it
                          +++ " returned invalid offline outcome " +++ show_outcome (Ok v))),
     st').
Proof.
  intros Hc Hr H0 H1. unfold verdict. rewrite Hc, Hr.
  destruct (Z.eqb_spec v OFFLINE_ACK) as [|_]; [contradiction|].
  destruct (Z.eqb_spec v TRIGGER_RUN) as [|_]; [contradiction|].
  reflexivity.
Qed.

(** C8. When the offline handler answers a command with a value that is
    neither OFFLINE_ACK nor TRIGGER_RUN, the loop buffers a failure ack for
    that message whose text names the message and the handler's output, goes
    on with the rest of the batch (same pending run flag, nothing enqueued),
    keeps that ack to the end of the loop, and leaves the health of the
    instance as it was.  Sent alone to a healthy STOPPED thread whose [out]
    accepts the ack, such a command makes [send_all] return ok and true with
    exactly that failure ack added to [out], [in] untouched, the thread still
    STOPPED and as healthy as before.  Anywhere in a batch sent to a healthy
    STOPPED thread whose queues accept, the failure ack is delivered on [out]
    between the acks of the messages before it and the acks of the messages
    after it, and the messages after it are classified as usual. *)
Theorem invalid_offline_outcome_is_acked_as_failure
    (it : Message) (command : CommandPayload) (rest : list Message)
    acks (should_run : bool) t (v : OfflineCommandOutcome) (st : ThreadStarter) :
  as_command it = Some command ->
  handle_offline_command command (starter t) = (Ok v, st) ->
  v <> OFFLINE_ACK ->
  v <> TRIGGER_RUN ->
  let failure :=
    ack it false ("Message " +++ show_message it
                  +++ " returned invalid offline outcome " +++ show_outcome (Ok v)) in
  classify (it :: rest) acks should_run t =
    classify rest (acks ++ [failure]) should_run (set_starter st t) /\
  health (snd (classify (it :: rest) acks should_run t)) = health t /\
  (forall acks' should_run' t',
     classify (it :: rest) acks should_run t = (Ok (acks', should_run'), t') ->
     In failure acks') /\
  (is_healthy t = true -> state t = STOPPED -> queue_error (out t) = None ->
   fst (send_all [it] t) = Ok true /\
   items (out (snd (send_all [it] t))) = items (out t) ++ [failure] /\
   in_ (snd (send_all [it] t)) = in_ t /\
   state (snd (send_all [it] t)) = STOPPED /\
   health (snd (send_all [it] t)) = health t) /\
  (forall (before : list Message) (t0 : Thread C),
     is_healthy t0 = true -> state t0 = STOPPED ->
     queue_error (in_ t0) = None -> queue_error (out t0) = None ->
     snd (verdicts before (starter t0)) = starter t ->
     items (out (snd (send_all (before ++ it :: rest) t0))) =
       items (out t0) ++ acks_of (fst (verdicts before (starter t0)))
                      ++ failure :: acks_of (fst (verdicts rest st)) /\
     items (in_ (snd (send_all (before ++ it :: rest) t0))) =
       items (in_ t0) ++ triggered_of (fst (verdicts before (starter t0)))
                      ++ triggered_of (fst (verdicts rest st))).
Proof.
  intros Hc Hr Hv0 Hv1 failure.
  assert (E : classify (it :: rest) acks should_run t =
              classify rest (acks ++ [failure]) should_run (set_starter st t)).
  { simpl. rewrite Hc, Hr.
    destruct (Z.eqb_spec v OFFLINE_ACK) as [|_]; [contradiction|].
    destruct (Z.eqb_spec v TRIGGER_RUN) as [|_]; [contradiction|].
    reflexivity. }
  split; [exact E|]. split; [apply classify_health|]. split; [|split].
  - intros acks' should_run' t' H. rewrite E in H.
    apply classify_keeps_acks in H. destruct H as [more ->].
    rewrite <- app_assoc. apply in_or_app. right. now left.
  - intros Hh Hs Ho. rewrite send_all_on_stopped by assumption.
    unfold send_all_stopped. simpl classify. rewrite Hc, Hr.
    destruct (Z.eqb_spec v OFFLINE_ACK) as [|_]; [contradiction|].
    destruct (Z.eqb_spec v TRIGGER_RUN) as [|_]; [contradiction|].
    simpl. unfold out_enqueue_all, Queue_enqueue_all. simpl. rewrite Ho. simpl. auto.
  - intros before t0 Hh0 Hs0 Hi0 Ho0 Hst.
    rewrite send_all_on_stopped by assumption.
    destruct (send_all_stopped_contents (before ++ it :: rest) t0 Hi0 Ho0) as (A1 & A2 & _).
    destruct (verdicts_app before (it :: rest) (starter t0)) as [Hv _].
    rewrite A1, A2, Hv, Hst, verdicts_cons.
    rewrite (verdict_invalid it command (starter t) st v Hc Hr Hv0 Hv1).
    cbn [fst snd]. rewrite acks_of_app, triggered_of_app. simpl. auto.
Qed.

(** ** The run cycle *)






End ThreadFacts.

(** * The facts at concrete inputs *)

Local Open Scope string_scope.
Local Open Scope list_scope.

(** The replay at [caught_stopping]: one message was caught in the race
    window, one new message is sent. *)
Lemma replay_of_the_caught_message :
  is_healthy caught_stopping = true /\
  state caught_stopping = STOPPING /\
  dead_letter_office (uv_thread_join caught_stopping) = Some [add_root "/late"] /\
  send_all [log_to_file "w.log"] caught_stopping =
    send_all_stopped [add_root "/late"; log_to_file "w.log"]
      (set_dead_letter_office None (uv_thread_join caught_stopping)) /\
  dead_letter_office (snd (send_all [log_to_file "w.log"] caught_stopping)) = None.
Proof.
  pose proof (send_all_stopping_replays_dead_letters
                [log_to_file "w.log"] [add_root "/late"] caught_stopping
                eq_refl eq_refl eq_refl) as H.
  cbv zeta in H. destruct H as (H1 & _ & _ & H4 & _).
  repeat split; assumption.
Defined.

(** Every operation, called on a thread whose worker could not be spawned. *)
Lemma every_operation_on_a_failed_thread :
  is_healthy never_started = false /\
  perform_all every_operation never_started =
    (repeat (Some "resource temporarily unavailable") 7, never_started).
Proof.
  split; [reflexivity|].
  exact (unhealthy_thread_short_circuits every_operation never_started eq_refl).
Defined.

(** A batch that both acks and starts the thread. *)
Lemma mixed_batch_acks_and_runs :
  trace (snd (send_all [log_to_file "w.log"; add_root "/srv"; sample_ack]
                (fresh steady LOG_DISABLED STOPPED))) =
    [EvEnqueue QIn (add_root "/srv");
     EvEnqueueAll QOut
       [Ack (log_to_file "w.log") true EmptyString;
        Ack sample_ack false "Non-command message [ack] sent"];
     EvMark STARTING; EvSpawn].
Proof.
  exact (proj1 (proj2 (stopped_batch_runs_and_acks_independently
                         [log_to_file "w.log"; add_root "/srv"; sample_ack]
                         (fresh steady LOG_DISABLED STOPPED)
                         eq_refl eq_refl eq_refl eq_refl))).
Defined.

(** Where C3 as stated fails: the handler answers TRIGGER_RUN for the only
    message, [in.enqueue] fails, and [send_all] returns the queue's error
    without calling [run()]: no thread is spawned and the state stays
    STOPPED. *)
Lemma trigger_run_but_no_run :
  is_healthy (with_failed_in STOPPED) = true /\
  state (with_failed_in STOPPED) = STOPPED /\
  fst (handle_offline_command {| action := COMMAND_ADD; arg := "/srv" |}
         (starter (with_failed_in STOPPED))) = Ok TRIGGER_RUN /\
  send_all [add_root "/srv"] (with_failed_in STOPPED) =
    (Error "queue mutex",
     record_event (EvEnqueue QIn (add_root "/srv")) (with_failed_in STOPPED)) /\
  count is_spawn (trace (snd (send_all [add_root "/srv"] (with_failed_in STOPPED)))) = 0%nat /\
  state (snd (send_all [add_root "/srv"] (with_failed_in STOPPED))) = STOPPED.
Proof. repeat split. Qed.

(** The four combinations of the two signals of a STOPPED batch. *)
Example acks_without_run :
  fst (send_all [log_to_file "w.log"] (fresh steady LOG_DISABLED STOPPED)) = Ok true /\
  state (snd (send_all [log_to_file "w.log"] (fresh steady LOG_DISABLED STOPPED))) = STOPPED.
Proof. split; reflexivity. Qed.

Example run_without_acks :
  fst (send_all [add_root "/srv"] (fresh steady LOG_DISABLED STOPPED)) = Ok false /\
  state (snd (send_all [add_root "/srv"] (fresh steady LOG_DISABLED STOPPED))) = STARTING.
Proof. split; reflexivity. Qed.

Example acks_and_run :
  fst (send_all [log_to_file "w.log"; add_root "/srv"]
         (fresh steady LOG_DISABLED STOPPED)) = Ok true /\
  state (snd (send_all [log_to_file "w.log"; add_root "/srv"]
                (fresh steady LOG_DISABLED STOPPED))) = STARTING.
Proof. split; reflexivity. Qed.

Example neither_acks_nor_run :
  send_all [] (fresh steady LOG_DISABLED STOPPED) =
    (Ok false, fresh steady LOG_DISABLED STOPPED).
Proof. reflexivity. Qed.

(** A failed wake signal, on a worker whose [uv_async_send] answers
    UV_EINVAL. *)
Lemma wake_failure_leaves_the_thread_healthy :
  fst (emit_all [sample_ack] (fresh deaf LOG_DISABLED RUNNING)) = Error "invalid argument" /\
  items (out (snd (emit_all [sample_ack] (fresh deaf LOG_DISABLED RUNNING)))) = [sample_ack] /\
  health (snd (emit_all [sample_ack] (fresh deaf LOG_DISABLED RUNNING))) = None /\
  is_healthy (snd (emit_all [sample_ack] (fresh deaf LOG_DISABLED RUNNING))) = true.
Proof.
  apply (emit_all_wake_failure_is_not_stored [sample_ack]
           (fresh deaf LOG_DISABLED RUNNING) eq_refl eq_refl).
  discriminate.
Defined.

(** Where C6 as stated fails: after [emit_all] returned the wake failure the
    instance is still healthy, and the calls that follow do their normal work
    instead of returning that error. *)
Lemma wake_failure_is_not_sticky :
  fst (emit_all [sample_ack] (fresh deaf LOG_DISABLED RUNNING)) = Error "invalid argument" /\
  is_healthy (snd (emit_all [sample_ack] (fresh deaf LOG_DISABLED RUNNING))) = true /\
  fst (receive_all (snd (emit_all [sample_ack] (fresh deaf LOG_DISABLED RUNNING))))
    = Ok (Some [sample_ack]) /\
  fst (send_all [add_root "/srv"] (snd (emit_all [sample_ack] (fresh deaf LOG_DISABLED RUNNING))))
    = Ok false /\
  fst (perform_all [OpSendAll [add_root "/srv"]; OpReceiveAll]
         (snd (emit_all [sample_ack] (fresh deaf LOG_DISABLED RUNNING))))
    = [None; None].
Proof. repeat split. Qed.

(** A batch of two, emitted. *)
Lemma batch_of_two_emitted :
  trace (snd (emit_all [sample_ack; sample_ack] (fresh steady LOG_DISABLED RUNNING))) =
    [EvEnqueueAll QOut [sample_ack; sample_ack]; EvAsyncSend] /\
  items (out (snd (emit_all [sample_ack; sample_ack] (fresh steady LOG_DISABLED RUNNING)))) =
    [sample_ack; sample_ack].
Proof.
  pose proof (emit_all_enqueues_once_and_wakes_once [sample_ack; sample_ack]
                (fresh steady LOG_DISABLED RUNNING) eq_refl) as (H1 & H2 & _).
  split; assumption.
Defined.

(** Where C7 as stated fails: [out.enqueue_all] fails on a healthy thread, and
    [emit_all] returns before the wake signal: one batch enqueue, no wake
    trigger. *)
Lemma failed_enqueue_triggers_no_wake :
  is_healthy (with_failed_out RUNNING) = true /\
  fst (emit_all [sample_ack] (with_failed_out RUNNING)) = Error "queue mutex" /\
  trace (snd (emit_all [sample_ack] (with_failed_out RUNNING))) =
    [EvEnqueueAll QOut [sample_ack]] /\
  count is_out_batch (trace (snd (emit_all [sample_ack] (with_failed_out RUNNING)))) = 1%nat /\
  count is_async_send (trace (snd (emit_all [sample_ack] (with_failed_out RUNNING)))) = 0%nat.
Proof. repeat split. Qed.

(** Two answers waiting on [out]. *)
Lemma two_answers_received :
  fst (receive_all (set_out (healthy_queue [sample_ack; sample_ack])
                      (fresh steady LOG_DISABLED RUNNING))) =
    Ok (Some [sample_ack; sample_ack]) /\
  items (out (snd (receive_all (set_out (healthy_queue [sample_ack; sample_ack])
                                  (fresh steady LOG_DISABLED RUNNING))))) = [].
Proof.
  pose proof (receive_all_takes_everything
                (set_out (healthy_queue [sample_ack; sample_ack])
                   (fresh steady LOG_DISABLED RUNNING)) eq_refl) as (H1 & H2 & _).
  split; assumption.
Defined.

(** A batch sent while the thread is STARTING. *)
Lemma batch_sent_while_starting :
  trace (snd (send_all [add_root "/a"; add_root "/b"] (fresh steady LOG_DISABLED STARTING))) =
    [EvEnqueueAll QIn [add_root "/a"; add_root "/b"]] /\
  count is_wake
    (trace (snd (send_all [add_root "/a"; add_root "/b"]
                   (fresh steady LOG_DISABLED STARTING)))) = 0%nat /\
  fst (send_all [add_root "/a"; add_root "/b"] (fresh steady LOG_DISABLED STARTING)) = Ok false /\
  items (in_ (snd (send_all [add_root "/a"; add_root "/b"]
                     (fresh steady LOG_DISABLED STARTING)))) =
    [add_root "/a"; add_root "/b"].
Proof.
  pose proof (send_all_starting_only_enqueues [add_root "/a"; add_root "/b"]
                (fresh steady LOG_DISABLED STARTING) eq_refl eq_refl) as (H1 & _ & H3).
  simpl in H3. destruct H3 as [H3 H4].
  split; [exact H1|]. split; [now rewrite H1|]. split; assumption.
Defined.

(** Where C10 as stated fails: [in.enqueue_all] fails on a healthy STARTING
    thread; nothing is enqueued and the call returns the queue's error, not
    false. *)
Lemma failed_enqueue_while_starting :
  is_healthy (with_failed_in STARTING) = true /\
  state (with_failed_in STARTING) = STARTING /\
  fst (send_all [add_root "/srv"] (with_failed_in STARTING)) = Error "queue mutex" /\
  fst (send_all [add_root "/srv"] (with_failed_in STARTING)) <> Ok false /\
  items (in_ (snd (send_all [add_root "/srv"] (with_failed_in STARTING)))) = [].
Proof. repeat split. discriminate. Qed.

(** A batch of four on a fresh STOPPED thread: three acks, one message for the
    worker. *)
Lemma batch_of_four_accounted_for :
  items (in_ (snd (send_all [log_to_file "w.log"; add_root "/srv"; odd_command 2; sample_ack]
                     (fresh steady LOG_DISABLED STOPPED)))) = [add_root "/srv"] /\
  map answered
    (items (out (snd (send_all [log_to_file "w.log"; add_root "/srv"; odd_command 2; sample_ack]
                        (fresh steady LOG_DISABLED STOPPED))))) =
    [Some (log_to_file "w.log"); Some (odd_command 2); Some sample_ack].
Proof.
  pose proof (stopped_batch_loses_no_message
                [log_to_file "w.log"; add_root "/srv"; odd_command 2; sample_ack]
                (fresh steady LOG_DISABLED STOPPED) eq_refl eq_refl eq_refl eq_refl) as H.
  cbv zeta in H. destruct H as (_ & _ & H3 & H4 & _).
  split; [exact H3|]. rewrite H4. reflexivity.
Defined.

(** A batch sent to a running worker. *)
Lemma batch_sent_while_running :
  trace (snd (send_all [add_root "/a"] (fresh steady LOG_DISABLED RUNNING))) =
    [EvEnqueueAll QIn [add_root "/a"]; EvWake] /\
  fst (send_all [add_root "/a"] (fresh steady LOG_DISABLED RUNNING)) = Ok false.
Proof.
  pose proof (send_all_running_enqueues_and_wakes [add_root "/a"]
                (fresh steady LOG_DISABLED RUNNING) eq_refl eq_refl eq_refl)
    as (H1 & _ & H3).
  split; assumption.
Defined.

(** A send that finds the worker stopping with nothing left behind. *)
Lemma join_without_dead_letters :
  send_all [log_to_file "w.log"] (fresh steady LOG_DISABLED STOPPING) =
    send_all_stopped [log_to_file "w.log"]
      (uv_thread_join (fresh steady LOG_DISABLED STOPPING)).
Proof.
  exact (send_all_stopping_without_dead_letters [log_to_file "w.log"]
           (fresh steady LOG_DISABLED STOPPING) eq_refl eq_refl eq_refl).
Defined.

(** ** Further facts at concrete inputs *)

(** A batch that returns true has put its acks on [out]. *)
Lemma true_means_something_to_receive :
  exists acks,
    items (out (snd (send_all [log_to_file "w.log"; add_root "/srv"]
                       (fresh steady LOG_DISABLED STOPPED)))) =
      items (out (fresh steady LOG_DISABLED STOPPED)) ++ acks /\
    true = nonempty acks /\
    Forall (fun a => as_command a = None) acks.
Proof.
  apply (send_all_boolean_tells_whether_out_grew
           [log_to_file "w.log"; add_root "/srv"] (fresh steady LOG_DISABLED STOPPED) true).
  reflexivity.
Defined.

(** After the send that joined it, [caught_stopping] is no longer STOPPING and
    its dead letter office is empty. *)
Lemma caught_thread_is_left_started :
  state (snd (send_all [log_to_file "w.log"] caught_stopping)) <> STOPPING /\
  (state (snd (send_all [log_to_file "w.log"] caught_stopping)) = STOPPED \/
   state (snd (send_all [log_to_file "w.log"] caught_stopping)) = STARTING) /\
  dead_letter_office (snd (send_all [log_to_file "w.log"] caught_stopping)) = None.
Proof.
  pose proof (send_all_never_leaves_the_thread_stopping
                [log_to_file "w.log"] caught_stopping eq_refl) as (H1 & _ & H3 & H4).
  split; [exact H1|]. split; [apply H3; now right|apply H4; reflexivity].
Defined.

(** A batch whose second message triggers, on a thread whose [in] has failed:
    the ack of the first message is lost with the call. *)
Lemma first_failed_enqueue_ends_the_batch :
  fst (send_all [log_to_file "w.log"; add_root "/srv"; add_root "/b"]
         (with_failed_in STOPPED)) = Error "queue mutex" /\
  trace (snd (send_all [log_to_file "w.log"; add_root "/srv"; add_root "/b"]
                (with_failed_in STOPPED))) = [EvEnqueue QIn (add_root "/srv")] /\
  out (snd (send_all [log_to_file "w.log"; add_root "/srv"; add_root "/b"]
              (with_failed_in STOPPED))) = healthy_queue [] /\
  state (snd (send_all [log_to_file "w.log"; add_root "/srv"; add_root "/b"]
                (with_failed_in STOPPED))) = STOPPED.
Proof.
  pose proof (stopped_batch_stops_at_the_first_failed_enqueue
                [log_to_file "w.log"; add_root "/srv"; add_root "/b"]
                (with_failed_in STOPPED) "queue mutex" (add_root "/srv") [add_root "/b"]
                eq_refl eq_refl eq_refl eq_refl) as (H1 & H2 & H3 & _ & H5 & _).
  repeat split; assumption.
Defined.

(** A batch that triggers nothing is answered although [in] has failed. *)
Lemma answered_although_in_has_failed :
  fst (send_all [log_to_file "w.log"; sample_ack] (with_failed_in STOPPED)) = Ok true /\
  map answered
    (items (out (snd (send_all [log_to_file "w.log"; sample_ack] (with_failed_in STOPPED)))))
    = [Some (log_to_file "w.log"); Some sample_ack] /\
  state (snd (send_all [log_to_file "w.log"; sample_ack] (with_failed_in STOPPED))) = STOPPED.
Proof.
  pose proof (stopped_batch_without_trigger_needs_no_in
                [log_to_file "w.log"; sample_ack] (with_failed_in STOPPED)
                eq_refl eq_refl eq_refl eq_refl) as H.
  cbv zeta in H. destruct H as (H1 & _ & H3 & H4 & H5 & _).
  split; [exact H1|]. split; [|exact H5]. rewrite H3. exact H4.
Defined.

(** An Add left on [in] of a STOPPED thread, because the ack of its neighbour
    could not be delivered. *)
Lemma add_left_behind_on_a_stopped_thread :
  fst (send_all [add_root "/srv"; log_to_file "w.log"] (with_failed_out STOPPED))
    = Error "queue mutex" /\
  items (in_ (snd (send_all [add_root "/srv"; log_to_file "w.log"]
                     (with_failed_out STOPPED)))) = [add_root "/srv"] /\
  state (snd (send_all [add_root "/srv"; log_to_file "w.log"]
                (with_failed_out STOPPED))) = STOPPED.
Proof.
  pose proof (stopped_batch_with_failed_out_strands_triggered_messages
                [add_root "/srv"; log_to_file "w.log"] (with_failed_out STOPPED)
                "queue mutex" eq_refl eq_refl eq_refl eq_refl eq_refl) as H.
  cbv zeta in H. destruct H as (H1 & H2 & _ & H4 & _).
  repeat split; assumption.
Defined.

(** Two acks sent to a STOPPED thread by mistake. *)
Lemma two_acks_refused :
  fst (send_all [sample_ack; sample_ack] (fresh steady LOG_DISABLED STOPPED)) = Ok true /\
  items (out (snd (send_all [sample_ack; sample_ack] (fresh steady LOG_DISABLED STOPPED))))
    = [Ack sample_ack false "Non-command message [ack] sent";
       Ack sample_ack false "Non-command message [ack] sent"].
Proof.
  assert (Hn : Forall (fun it => as_command it = None) [sample_ack; sample_ack])
    by (repeat constructor).
  rewrite (non_commands_are_refused_offline [sample_ack; sample_ack]
             (fresh steady LOG_DISABLED STOPPED) Hn eq_refl eq_refl eq_refl).
  split; reflexivity.
Defined.

(** A Remove refused by the handler of the strict worker. *)
Lemma refused_remove_is_acked :
  fst (send_all [remove_root "/srv"] (fresh strict LOG_DISABLED STOPPED)) = Ok true /\
  items (out (snd (send_all [remove_root "/srv"] (fresh strict LOG_DISABLED STOPPED))))
    = [Ack (remove_root "/srv") false "nothing is watched"] /\
  state (snd (send_all [remove_root "/srv"] (fresh strict LOG_DISABLED STOPPED))) = STOPPED.
Proof.
  pose proof (offline_handler_error_is_acked_not_returned
                (remove_root "/srv") {| action := COMMAND_REMOVE; arg := "/srv" |}
                [] [] false (fresh strict LOG_DISABLED STOPPED)
                "nothing is watched" LOG_DISABLED eq_refl eq_refl) as (_ & _ & H).
  destruct (H eq_refl eq_refl eq_refl) as (H1 & H2 & H3 & _).
  repeat split; assumption.
Defined.

(** The replay at [caught_two]: the old logging command is answered before the
    new one. *)
Lemma old_answers_come_first :
  items (out (snd (send_all [log_to_file "new.log"] caught_two))) =
    [Ack (log_to_file "old.log") true EmptyString;
     Ack (log_to_file "new.log") true EmptyString] /\
  items (in_ (snd (send_all [log_to_file "new.log"] caught_two))) = [add_root "/late"].
Proof.
  pose proof (replay_answers_dead_letters_first [log_to_file "new.log"]
                [log_to_file "old.log"; add_root "/late"] caught_two
                eq_refl eq_refl eq_refl eq_refl eq_refl) as H.
  cbv zeta in H. destruct H as (H1 & H2 & _). split; assumption.
Defined.

(** Three answers, emitted at once or one by one. *)
Lemma three_answers_either_way :
  items (out (snd (emit_all [sample_ack; sample_ack; sample_ack]
                     (fresh steady LOG_DISABLED RUNNING)))) =
    items (out (emit_each [sample_ack; sample_ack; sample_ack]
                  (fresh steady LOG_DISABLED RUNNING))) /\
  count is_async_send
    (trace (snd (emit_all [sample_ack; sample_ack; sample_ack]
                   (fresh steady LOG_DISABLED RUNNING)))) = 1%nat /\
  count is_async_send
    (trace (emit_each [sample_ack; sample_ack; sample_ack]
              (fresh steady LOG_DISABLED RUNNING))) = 3%nat.
Proof.
  pose proof (emit_all_batches_what_emit_each_repeats
                [sample_ack; sample_ack; sample_ack]
                (fresh steady LOG_DISABLED RUNNING) eq_refl eq_refl) as (H1 & H2 & H3 & _).
  repeat split; assumption.
Defined.

(** Two roots, sent at once or one by one to a running worker. *)
Lemma two_roots_either_way :
  items (in_ (snd (send_all [add_root "/a"; add_root "/b"]
                     (fresh steady LOG_DISABLED RUNNING)))) =
    items (in_ (send_each [add_root "/a"; add_root "/b"]
                  (fresh steady LOG_DISABLED RUNNING))) /\
  count is_wake (trace (snd (send_all [add_root "/a"; add_root "/b"]
                               (fresh steady LOG_DISABLED RUNNING)))) = 1%nat /\
  count is_wake (trace (send_each [add_root "/a"; add_root "/b"]
                          (fresh steady LOG_DISABLED RUNNING))) = 2%nat.
Proof.
  pose proof (send_all_batches_what_send_each_repeats
                [add_root "/a"; add_root "/b"]
                (fresh steady LOG_DISABLED RUNNING) eq_refl eq_refl eq_refl)
    as (H1 & H2 & H3).
  repeat split; assumption.
Defined.

(** The steady worker keeps the default [wake()]. *)
Lemma default_wake_never_fails_a_send :
  fst (send_all [add_root "/a"] (fresh steady LOG_DISABLED RUNNING)) = Ok false /\
  fst (send_all [add_root "/a"] (with_failed_in RUNNING)) = Error "queue mutex".
Proof.
  split.
  - exact (send_all_running_with_default_wake [add_root "/a"]
             (fresh steady LOG_DISABLED RUNNING) (fun _ => eq_refl) eq_refl eq_refl).
  - exact (send_all_running_with_default_wake [add_root "/a"]
             (with_failed_in RUNNING) (fun _ => eq_refl) eq_refl eq_refl).
Defined.

(** Three messages sent, three more on the queues. *)
Lemma three_sent_three_queued :
  (get_in_queue_size
     (snd (send_all [log_to_file "w.log"; add_root "/srv"; sample_ack]
             (fresh steady LOG_DISABLED STOPPED)))
   + get_out_queue_size
       (snd (send_all [log_to_file "w.log"; add_root "/srv"; sample_ack]
               (fresh steady LOG_DISABLED STOPPED))) = 3)%nat.
Proof.
  apply (send_all_grows_the_queues_by_the_batch
           [log_to_file "w.log"; add_root "/srv"; sample_ack]
           (fresh steady LOG_DISABLED STOPPED) eq_refl);
    [discriminate|reflexivity|reflexivity].
Defined.

(** The calls of the send that joined [caught_stopping]. *)
Lemma calls_of_the_joining_send :
  exists evs,
    trace (snd (send_all [log_to_file "w.log"] caught_stopping))
      = trace caught_stopping ++ evs /\
    count is_async_send evs = 0%nat /\
    count is_join evs = 1%nat /\
    (count is_wake evs <= 0)%nat /\
    (count is_spawn evs <= 1)%nat.
Proof.
  destruct (send_all_calls_by_state [log_to_file "w.log"] caught_stopping eq_refl)
    as (evs & H1 & H2 & H3 & H4 & H5 & _).
  exists evs. repeat split; assumption.
Defined.

(** A batch of four, split after its second message. *)
Lemma split_after_two :
  items (out (snd (send_all [add_root "/srv"; log_to_file "b.log"]
                     (snd (send_all [log_to_file "a.log"; sample_ack]
                             (fresh steady LOG_DISABLED STOPPED)))))) =
    items (out (snd (send_all [log_to_file "a.log"; sample_ack;
                               add_root "/srv"; log_to_file "b.log"]
                       (fresh steady LOG_DISABLED STOPPED)))) /\
  items (in_ (snd (send_all [add_root "/srv"; log_to_file "b.log"]
                     (snd (send_all [log_to_file "a.log"; sample_ack]
                             (fresh steady LOG_DISABLED STOPPED)))))) =
    items (in_ (snd (send_all [log_to_file "a.log"; sample_ack;
                               add_root "/srv"; log_to_file "b.log"]
                       (fresh steady LOG_DISABLED STOPPED)))).
Proof.
  pose proof (stopped_batch_splits_after_messages_that_do_not_trigger
                [log_to_file "a.log"; sample_ack] [add_root "/srv"; log_to_file "b.log"]
                (fresh steady LOG_DISABLED STOPPED)
                eq_refl eq_refl eq_refl eq_refl eq_refl) as H.
  cbv zeta in H. destruct H as (H1 & H2 & _). split; assumption.
Defined.

(** ** The run cycle and the invalid outcome at concrete inputs *)



(** A command whose handler answers 2, alone and between two other
    messages. *)
Lemma outcome_two_is_acked_as_failure :
  fst (send_all [odd_command 2] (fresh steady LOG_DISABLED STOPPED)) = Ok true /\
  items (out (snd (send_all [odd_command 2] (fresh steady LOG_DISABLED STOPPED)))) =
    [Ack (odd_command 2) false
       "Message [command odd] returned invalid offline outcome 2"] /\
  health (snd (send_all [odd_command 2] (fresh steady LOG_DISABLED STOPPED))) = None /\
  items (out (snd (send_all [log_to_file "w.log"; odd_command 2; add_root "/srv"; sample_ack]
                     (fresh steady LOG_DISABLED STOPPED)))) =
    [Ack (log_to_file "w.log") true EmptyString;
     Ack (odd_command 2) false
       "Message [command odd] returned invalid offline outcome 2";
     Ack sample_ack false "Non-command message [ack] sent"] /\
  items (in_ (snd (send_all [log_to_file "w.log"; odd_command 2; add_root "/srv"; sample_ack]
                     (fresh steady LOG_DISABLED STOPPED)))) = [add_root "/srv"].
Proof.
  assert (N0 : 2%Z <> OFFLINE_ACK) by discriminate.
  assert (N1 : 2%Z <> TRIGGER_RUN) by discriminate.
  pose proof (invalid_offline_outcome_is_acked_as_failure (C := steady)
                (odd_command 2) {| action := COMMAND_OTHER 2; arg := "odd" |}
                [add_root "/srv"; sample_ack] [] false
                (fresh steady (LOG_FILE "w.log") STOPPED)
                2%Z (LOG_FILE "w.log") eq_refl eq_refl N0 N1) as H.
  cbv zeta in H. destruct H as (_ & _ & _ & _ & Hbatch).
  destruct (Hbatch [log_to_file "w.log"] (fresh steady LOG_DISABLED STOPPED)
              eq_refl eq_refl eq_refl eq_refl eq_refl) as [B1 B2].
  pose proof (invalid_offline_outcome_is_acked_as_failure (C := steady)
                (odd_command 2) {| action := COMMAND_OTHER 2; arg := "odd" |}
                [] [] false (fresh steady LOG_DISABLED STOPPED)
                2%Z LOG_DISABLED eq_refl eq_refl N0 N1) as H.
  cbv zeta in H. destruct H as (_ & _ & _ & Halone & _).
  destruct (Halone eq_refl eq_refl eq_refl) as (A1 & A2 & _ & _ & A5).
  split; [exact A1|]. split; [exact A2|]. split; [exact A5|].
  split; [exact B1|exact B2].
Defined.

(** Nothing to emit or to send: the calls are made all the same, and stop at
    a failed enqueue. *)
Lemma nothing_emitted_signal_sent :
  trace (snd (emit_all [] (fresh steady LOG_DISABLED RUNNING)))
    = [EvEnqueueAll QOut []; EvAsyncSend] /\
  trace (snd (send_all [] (fresh steady LOG_DISABLED RUNNING)))
    = [EvEnqueueAll QIn []; EvWake] /\
  trace (snd (emit_all [] (with_failed_out RUNNING))) = [EvEnqueueAll QOut []] /\
  trace (snd (send_all [] (with_failed_in RUNNING))) = [EvEnqueueAll QIn []].
Proof.
  pose proof (empty_batches_still_signal (fresh steady LOG_DISABLED RUNNING) eq_refl)
    as (_ & _ & H3 & _ & H4).
  destruct (H3 eq_refl) as [_ H3'].
  pose proof (empty_batches_still_signal (with_failed_out RUNNING) eq_refl)
    as (_ & _ & _ & _ & H4').
  pose proof (empty_batches_still_signal (with_failed_in RUNNING) eq_refl)
    as (_ & _ & H3f & _).
  destruct (H3f eq_refl) as [_ H3f'].
  repeat split; assumption.
Defined.
